(** * PsychedelicVideo: the animation engine, embedded and verified

    A shallow embedding of [animations.js] (the [Animation] base class, its
    six variants and the registry [createAnimation]) and of the reset path
    of the driver [app.js].

    Numbers.  JavaScript numbers are modelled by exact rationals [Q]: the
    arithmetic of the source ([+], [*], [/], [%], comparisons,
    [Math.floor], [Math.round], [Math.abs], [Math.max], [Math.min]) is
    written out on [Q] and computes.  A result that is no finite number in
    the source (a read outside an array, a division by zero in
    [fractalNoise]) is [None].  Counts (loop bounds, [frame], [maxIter],
    [trailLength]) are integers.  [Math.log] is the real logarithm [ln],
    so the smoothed escape count of the fractal evaluator is a real
    number.  [Math.random] is an explicit stream of draws.  The colour
    model is given a second time on IEEE doubles, module [Double].

    Objects.  The state of an instance is a record, a method is a function
    from state to state, and a method call on an instance of unknown class
    goes through [Instance].  The canvas context records what was drawn.

    Layout: the embedding, the properties, the theorems. *)

From Stdlib Require Import ZArith QArith Qround Qabs Lqa Lia List Bool String.
From Stdlib Require Import Reals Lra Qreals Floats.
From stdpp Require Import base option list strings gmap.

(* ===================================================================== *)
(** * JavaScript arithmetic on rationals *)
(* ===================================================================== *)

Module JS.

Local Open Scope Q_scope.

(** [a < b] and [a <= b], as booleans. *)
Definition ltb (a b : Q) : bool := negb (Qle_bool b a).
Definition leb (a b : Q) : bool := Qle_bool a b.

(** [Math.floor]. *)
Definition Math_floor (x : Q) : Z := Qfloor x.

(** [Math.round]: the nearest integer, a tie going up. *)
Definition Math_round (x : Q) : Z := Qfloor (x + (1 # 2)).

(** [Math.abs]. *)
Definition Math_abs (x : Q) : Q := Qabs x.

(** [Math.max(a, b)] and [Math.min(a, b)]. *)
Definition Math_max (a b : Q) : Q := if leb a b then b else a.
Definition Math_min (a b : Q) : Q := if leb a b then a else b.

(** The integer part, rounding toward zero. *)
Definition trunc (x : Q) : Z := Z.quot (Qnum x) (Zpos (Qden x)).

(** [a % b]: the remainder of the truncated division, with the sign of
    the dividend. *)
Definition rem (a b : Q) : Q := a - b * inject_Z (trunc (a / b)).

End JS.

(* ===================================================================== *)
(** * The canvas capability *)
(* ===================================================================== *)

(** The drawing surface is an external collaborator.  Its 2D context is
    modelled by the current fill style and the list of drawing operations
    issued so far, oldest first. *)
Module Canvas.

Inductive Style :=
| Black
| White
| Rgb (r g b : Z)
| Rgba (r g b : Z) (alpha : Q).

(** One write [data[index] = value] into an image buffer; [None] is a
    value that is no finite number. *)
Definition Write : Type := Z * option Q.

Inductive Draw :=
| FillRect (style : Style) (x y w h : Q)
| PutImageData (writes : list Write).

Record Context2D := mkContext {
  fillStyle : Style;
  drawn : list Draw
}.

Record t := mkCanvas {
  width : Z;
  height : Z;
  context : Context2D
}.

Definition getContext (c : t) : Context2D := context c.

Definition setFillStyle (s : Style) (ctx : Context2D) : Context2D :=
  {| fillStyle := s; drawn := drawn ctx |}.

Definition fillRect (x y w h : Q) (ctx : Context2D) : Context2D :=
  {| fillStyle := fillStyle ctx;
     drawn := drawn ctx ++ [FillRect (fillStyle ctx) x y w h] |}.

Definition putImageData (writes : list Write) (ctx : Context2D) : Context2D :=
  {| fillStyle := fillStyle ctx;
     drawn := drawn ctx ++ [PutImageData writes] |}.

End Canvas.

(* ===================================================================== *)
(** * Parameter objects *)
(* ===================================================================== *)

(** A parameter object ([params], [newParams]) is a list of key/value
    assignments, in the order of the object literal.  The keys are those
    that some variant reads; each variant picks its own and leaves the
    others alone (JavaScript stores them, nothing reads them).  Counts
    ([numPolygons], [sides], [particleCount], [trailLength], [octaves],
    [maxIterations]) are natural numbers. *)
Module Param.

Inductive Assign :=
| speed (v : Q) | trails (v : bool) | trailFade (v : Q)
| numPolygons (v : nat) | sides (v : nat) | maxRadius (v : Q)
| minRadius (v : Q) | rotationSpeed (v : Q) | colorShift (v : Q)
| lineWidth (v : Q)
| frequency1 (v : Q) | frequency2 (v : Q) | amplitude (v : Q)
| waveSpeed (v : Q) | colorMode (v : string)
| particleCount (v : nat) | gravity (v : Q) | bounceDamping (v : Q)
| airDamping (v : Q) | trailLength (v : nat)
| scale (v : Q) | octaves (v : nat) | persistence (v : Q)
| lacunarity (v : Q) | timeSpeed (v : Q) | brightness (v : Q)
| maxIterations (v : nat) | zoomSpeed (v : Q) | colorSpeed (v : Q)
| fractalType (v : string) | contrast (v : Q)
| centerX (v : Q) | centerY (v : Q)
| R (v : Q) | r (v : Q) | d (v : Q) | spiralSpeed (v : Q).

Definition Object : Type := list Assign.

End Param.

(* ===================================================================== *)
(** * [class Animation] *)
(* ===================================================================== *)

Module Animation.

Import JS.
Local Open Scope Q_scope.

(** [this.params]: the three base parameters and the variant's own. *)
Record Params (V : Type) := mkParams {
  speed : Q;
  trails : bool;
  trailFade : Q;
  own : V
}.
Arguments mkParams {V}.
Arguments speed {V}.
Arguments trails {V}.
Arguments trailFade {V}.
Arguments own {V}.

(** The instance state that every variant inherits. *)
Record t (V : Type) := mk {
  ctx : Canvas.Context2D;
  width : Z;
  height : Z;
  centerX : Q;
  centerY : Q;
  frame : Z;
  time : Q;
  params : Params V;
  isPlaying : bool
}.
Arguments mk {V}.
Arguments ctx {V}.
Arguments width {V}.
Arguments height {V}.
Arguments centerX {V}.
Arguments centerY {V}.
Arguments frame {V}.
Arguments time {V}.
Arguments params {V}.
Arguments isPlaying {V}.

(** What a variant supplies: its defaults ([getDefaultParams], base
    defaults included) and how it reads one assignment of its own. *)
Class Variant (V : Type) := {
  getDefaultParams : Params V;
  assignOwn : V -> Param.Assign -> V
}.

(** [getDefaultParams()] of the base class, around a variant's own. *)
Definition baseDefaults {V} (o : V) : Params V :=
  {| speed := 1; trails := false; trailFade := 95 # 100; own := o |}.

(** One key of [{ ...p, ...newParams }]. *)
Definition assign {V} `{Variant V} (p : Params V) (a : Param.Assign) : Params V :=
  match a with
  | Param.speed v =>
      {| speed := v; trails := trails p; trailFade := trailFade p; own := own p |}
  | Param.trails v =>
      {| speed := speed p; trails := v; trailFade := trailFade p; own := own p |}
  | Param.trailFade v =>
      {| speed := speed p; trails := trails p; trailFade := v; own := own p |}
  | _ =>
      {| speed := speed p; trails := trails p; trailFade := trailFade p;
         own := assignOwn (own p) a |}
  end.

(** [{ ...p, ...newParams }]: later keys win. *)
Definition merge {V} `{Variant V} (p : Params V) (newParams : Param.Object) : Params V :=
  fold_left assign newParams p.

Definition constructor {V} `{Variant V} (canvas : Canvas.t) (params : Param.Object) : t V :=
  {| ctx := Canvas.getContext canvas;
     width := Canvas.width canvas;
     height := Canvas.height canvas;
     centerX := inject_Z (Canvas.width canvas) / 2;
     centerY := inject_Z (Canvas.height canvas) / 2;
     frame := 0;
     time := 0;
     params := merge getDefaultParams params;
     isPlaying := false |}.

Definition update {V} (a : t V) (deltaTime : Q) : t V :=
  if isPlaying a then
    {| ctx := ctx a; width := width a; height := height a;
       centerX := centerX a; centerY := centerY a;
       frame := frame a + 1;
       time := time a + deltaTime * speed (params a);
       params := params a; isPlaying := isPlaying a |}
  else a.

Definition withCtx {V} (a : t V) (c : Canvas.Context2D) : t V :=
  {| ctx := c; width := width a; height := height a;
     centerX := centerX a; centerY := centerY a;
     frame := frame a; time := time a;
     params := params a; isPlaying := isPlaying a |}.

Definition clearStyle {V} (a : t V) : Canvas.Style :=
  if trails (params a)
  then Canvas.Rgba 0 0 0 (1 - trailFade (params a))
  else Canvas.Black.

Definition render {V} (a : t V) : t V :=
  withCtx a
    (Canvas.fillRect 0 0 (inject_Z (width a)) (inject_Z (height a))
       (Canvas.setFillStyle (clearStyle a) (ctx a))).

Definition setPlaying {V} (a : t V) (b : bool) : t V :=
  {| ctx := ctx a; width := width a; height := height a;
     centerX := centerX a; centerY := centerY a;
     frame := frame a; time := time a;
     params := params a; isPlaying := b |}.

Definition play {V} (a : t V) : t V := setPlaying a true.
Definition pause {V} (a : t V) : t V := setPlaying a false.

Definition reset {V} (a : t V) : t V :=
  {| ctx := Canvas.fillRect 0 0 (inject_Z (width a)) (inject_Z (height a))
              (Canvas.setFillStyle Canvas.Black (ctx a));
     width := width a; height := height a;
     centerX := centerX a; centerY := centerY a;
     frame := 0;
     time := 0;
     params := params a; isPlaying := isPlaying a |}.

Definition updateParams {V} `{Variant V} (a : t V) (newParams : Param.Object) : t V :=
  {| ctx := ctx a; width := width a; height := height a;
     centerX := centerX a; centerY := centerY a;
     frame := frame a; time := time a;
     params := merge (params a) newParams; isPlaying := isPlaying a |}.

Definition withCenter {V} (a : t V) (cx cy : Q) : t V :=
  {| ctx := ctx a; width := width a; height := height a;
     centerX := cx; centerY := cy;
     frame := frame a; time := time a;
     params := params a; isPlaying := isPlaying a |}.

(** [hsvToRgb(h, s, v)]. *)
Definition hsvToRgb (h s v : Q) : Z * Z * Z :=
  let c := v * s in
  let x := c * (1 - Math_abs (rem (h * 6) 2 - 1)) in
  let m := v - c in
  let '(r, g, b) :=
    if ltb h (1 / 6) then (c, x, 0)
    else if ltb h (2 / 6) then (x, c, 0)
    else if ltb h (3 / 6) then (0, c, x)
    else if ltb h (4 / 6) then (0, x, c)
    else if ltb h (5 / 6) then (x, 0, c)
    else (c, 0, x) in
  (Math_round ((r + m) * 255),
   Math_round ((g + m) * 255),
   Math_round ((b + m) * 255)).

End Animation.

(* ===================================================================== *)
(** * The colour model on doubles *)
(* ===================================================================== *)

(** [hsvToRgb] once more, on IEEE 754 binary64 numbers (the kernel's
    floats), to follow the roundings of the source at the sector
    boundaries [1/6], [2/6], ...  Sums, products, quotients and
    comparisons are those of the machine; [%] and [Math.round] are exact
    by definition and are computed on the decoded value. *)
Module Double.

(** The value of a finite double, as [m * 2^e] with an integer [m]. *)
Definition decode (f : float) : option (Z * Z) :=
  match Prim2SF f with
  | S754_zero _ => Some (0, 0)%Z
  | S754_finite s m e => Some (if s then Z.neg m else Z.pos m, e)
  | _ => None
  end.

(** [m * 2^e] as a rational. *)
Definition dyadic (m e : Z) : Q :=
  match e with
  | Z.neg p => m # Pos.pow 2 p
  | _ => inject_Z (m * 2 ^ e)
  end.

(** The double nearest to [m * 2^e]; [negzero] is the sign of a zero. *)
Definition encode (m e : Z) (negzero : bool) : float :=
  SF2Prim (binary_normalize prec emax m e negzero).

(** [Math.round]: the value plus one half, rounded down; nothing for
    [NaN] and the infinities. *)
Definition Math_round (f : float) : option Z :=
  match decode f with
  | Some (m, e) => Some (Qfloor (dyadic m e + (1 # 2)))
  | None => None
  end.

(** [a % b]: the remainder of the truncated division, which is a double
    and has the sign of [a]. *)
Definition rem (a b : float) : float :=
  match decode a, decode b with
  | Some (ma, ea), Some (mb, eb) =>
      if (mb =? 0)%Z then nan
      else
        let e := Z.min ea eb in
        let x := (ma * 2 ^ (ea - e))%Z in
        let y := (mb * 2 ^ (eb - e))%Z in
        encode (Z.rem x y) e (get_sign a)
  | Some _, None => if is_nan b then nan else a
  | None, _ => nan
  end.

Local Open Scope float_scope.

Definition hsvToRgb (h s v : float) : option Z * option Z * option Z :=
  let c := v * s in
  let x := c * (1 - abs (rem (h * 6) 2 - 1)) in
  let m := v - c in
  let '(r, g, b) :=
    if h <? 1 / 6 then (c, x, 0)
    else if h <? 2 / 6 then (x, c, 0)
    else if h <? 3 / 6 then (0, c, x)
    else if h <? 4 / 6 then (0, x, c)
    else if h <? 5 / 6 then (x, 0, c)
    else (c, 0, x) in
  (Math_round ((r + m) * 255),
   Math_round ((g + m) * 255),
   Math_round ((b + m) * 255)).

End Double.

(* ===================================================================== *)
(** * [class RotatingPolygons extends Animation] *)
(* ===================================================================== *)

Module RotatingPolygons.

Import JS.
Local Open Scope Q_scope.

Record Own := mkOwn {
  numPolygons : nat;
  sides : nat;
  maxRadius : Q;
  minRadius : Q;
  rotationSpeed : Q;
  colorShift : Q;
  lineWidth : Q
}.

Definition assignOwn (o : Own) (a : Param.Assign) : Own :=
  let 'mkOwn n s ma mi rs cs lw := o in
  match a with
  | Param.numPolygons v => mkOwn v s ma mi rs cs lw
  | Param.sides v => mkOwn n v ma mi rs cs lw
  | Param.maxRadius v => mkOwn n s v mi rs cs lw
  | Param.minRadius v => mkOwn n s ma v rs cs lw
  | Param.rotationSpeed v => mkOwn n s ma mi v cs lw
  | Param.colorShift v => mkOwn n s ma mi rs v lw
  | Param.lineWidth v => mkOwn n s ma mi rs cs v
  | _ => o
  end.

#[export] Instance variant : Animation.Variant Own := {|
  Animation.getDefaultParams :=
    Animation.baseDefaults
      {| numPolygons := 5; sides := 6; maxRadius := 200; minRadius := 50;
         rotationSpeed := 1.0; colorShift := 0.0; lineWidth := 2 |};
  Animation.assignOwn := assignOwn
|}.

Record t := mk {
  base : Animation.t Own;
  rotationPhase : Q;
  lastTime : Q;
  lastRotationSpeed : Q
}.

Definition constructor (canvas : Canvas.t) (params : Param.Object) : t :=
  let b := Animation.constructor canvas params in
  {| base := b;
     rotationPhase := 0;
     lastTime := 0;
     lastRotationSpeed := rotationSpeed (Animation.own (Animation.params b)) |}.

Definition update (a : t) (deltaTime : Q) : t :=
  let b := Animation.update (base a) deltaTime in
  if Animation.isPlaying b then
    let timeDelta := Animation.time b - lastTime a in
    let speed := rotationSpeed (Animation.own (Animation.params b)) in
    {| base := b;
       rotationPhase := rotationPhase a + timeDelta * speed * 0.01;
       lastTime := Animation.time b;
       lastRotationSpeed := speed |}
  else
    {| base := b;
       rotationPhase := rotationPhase a;
       lastTime := lastTime a;
       lastRotationSpeed := lastRotationSpeed a |}.

Definition reset (a : t) : t :=
  {| base := Animation.reset (base a);
     rotationPhase := 0;
     lastTime := 0;
     lastRotationSpeed := lastRotationSpeed a |}.

Definition withBase (a : t) (b : Animation.t Own) : t :=
  {| base := b; rotationPhase := rotationPhase a; lastTime := lastTime a;
     lastRotationSpeed := lastRotationSpeed a |}.

End RotatingPolygons.

(* ===================================================================== *)
(** * [class WaveInterference extends Animation] *)
(* ===================================================================== *)

Module WaveInterference.

Local Open Scope Q_scope.

Record Own := mkOwn {
  frequency1 : Q;
  frequency2 : Q;
  amplitude : Q;
  waveSpeed : Q;
  colorMode : string
}.

Definition assignOwn (o : Own) (a : Param.Assign) : Own :=
  let 'mkOwn f1 f2 am ws cm := o in
  match a with
  | Param.frequency1 v => mkOwn v f2 am ws cm
  | Param.frequency2 v => mkOwn f1 v am ws cm
  | Param.amplitude v => mkOwn f1 f2 v ws cm
  | Param.waveSpeed v => mkOwn f1 f2 am v cm
  | Param.colorMode v => mkOwn f1 f2 am ws v
  | _ => o
  end.

#[export] Instance variant : Animation.Variant Own := {|
  Animation.getDefaultParams :=
    Animation.baseDefaults
      {| frequency1 := 0.05; frequency2 := 0.03; amplitude := 50;
         waveSpeed := 1.0; colorMode := "rainbow" |};
  Animation.assignOwn := assignOwn
|}.

(** The class adds no state and overrides neither [update] nor [reset]. *)
Record t := mk { base : Animation.t Own }.

Definition constructor (canvas : Canvas.t) (params : Param.Object) : t :=
  {| base := Animation.constructor canvas params |}.

Definition update (a : t) (deltaTime : Q) : t :=
  {| base := Animation.update (base a) deltaTime |}.

Definition reset (a : t) : t := {| base := Animation.reset (base a) |}.

Definition withBase (a : t) (b : Animation.t Own) : t := {| base := b |}.

End WaveInterference.

(* ===================================================================== *)
(** * [class ParticleSystem extends Animation] *)
(* ===================================================================== *)

(** [Math.random()]: the draws, in call order. *)
Definition Random : Type := nat -> Q.

Module ParticleSystem.

Import JS.
Local Open Scope Q_scope.

Record Own := mkOwn {
  particleCount : nat;
  gravity : Q;
  bounceDamping : Q;
  airDamping : Q;
  trailLength : nat;
  colorMode : string
}.

Definition assignOwn (o : Own) (a : Param.Assign) : Own :=
  let 'mkOwn pc g bd ad tl cm := o in
  match a with
  | Param.particleCount v => mkOwn v g bd ad tl cm
  | Param.gravity v => mkOwn pc v bd ad tl cm
  | Param.bounceDamping v => mkOwn pc g v ad tl cm
  | Param.airDamping v => mkOwn pc g bd v tl cm
  | Param.trailLength v => mkOwn pc g bd ad v cm
  | Param.colorMode v => mkOwn pc g bd ad tl v
  | _ => o
  end.

#[export] Instance variant : Animation.Variant Own := {|
  Animation.getDefaultParams :=
    Animation.baseDefaults
      {| particleCount := 100; gravity := 0.1; bounceDamping := 0.8;
         airDamping := 0.999; trailLength := 20; colorMode := "velocity" |};
  Animation.assignOwn := assignOwn
|}.

Record Point := mkPoint { px : Q; py : Q }.

Record Particle := mkParticle {
  x : Q;
  y : Q;
  vx : Q;
  vy : Q;
  trail : list Point
}.

Record t := mk {
  base : Animation.t Own;
  particles : list Particle
}.

(** The particle pushed at iteration [i]: four draws, in the order of
    the object literal. *)
Definition spawn (random : Random) (width height : Z) (i : nat) : Particle :=
  {| x := random (4 * i)%nat * inject_Z width;
     y := random (4 * i + 1)%nat * inject_Z height;
     vx := (random (4 * i + 2)%nat - 0.5) * 10;
     vy := (random (4 * i + 3)%nat - 0.5) * 10;
     trail := [] |}.

Definition initializeParticles (random : Random) (a : t) : t :=
  let n := particleCount (Animation.own (Animation.params (base a))) in
  {| base := base a;
     particles :=
       map (spawn random (Animation.width (base a)) (Animation.height (base a)))
           (seq 0 n) |}.

Definition constructor (random : Random) (canvas : Canvas.t) (params : Param.Object) : t :=
  initializeParticles random
    {| base := Animation.constructor canvas params; particles := [] |}.

(** [trail.push(p); if (trail.length > trailLength) trail.shift()]. *)
Definition pushTrail (trailLength : nat) (tr : list Point) (p : Point) : list Point :=
  let pushed := tr ++ [p] in
  if (trailLength <? length pushed)%nat then tl pushed else pushed.

(** The body of the [forEach] of [update], on one particle. *)
Definition step (width height : Z) (o : Own) (dt : Q) (p : Particle) : Particle :=
  let vy1 := vy p + gravity o in
  let vx2 := vx p * airDamping o in
  let vy2 := vy1 * airDamping o in
  let x1 := x p + vx2 * dt in
  let y1 := y p + vy2 * dt in
  let hitX := leb x1 0 || leb (inject_Z width) x1 in
  let vx3 := if hitX then vx2 * - bounceDamping o else vx2 in
  let x2 := if hitX then Math_max 0 (Math_min (inject_Z width) x1) else x1 in
  let hitY := leb y1 0 || leb (inject_Z height) y1 in
  let vy3 := if hitY then vy2 * - bounceDamping o else vy2 in
  let y2 := if hitY then Math_max 0 (Math_min (inject_Z height) y1) else y1 in
  {| x := x2; y := y2; vx := vx3; vy := vy3;
     trail := pushTrail (trailLength o) (trail p) {| px := x2; py := y2 |} |}.

Definition update (a : t) (deltaTime : Q) : t :=
  let b := Animation.update (base a) deltaTime in
  if negb (Animation.isPlaying b) then
    {| base := b; particles := particles a |}
  else
    let dt := deltaTime * 0.01 in
    {| base := b;
       particles :=
         map (step (Animation.width b) (Animation.height b)
                   (Animation.own (Animation.params b)) dt)
             (particles a) |}.

(** Inherited. *)
Definition reset (a : t) : t :=
  {| base := Animation.reset (base a); particles := particles a |}.

Definition withBase (a : t) (b : Animation.t Own) : t :=
  {| base := b; particles := particles a |}.

Definition updateParams (a : t) (newParams : Param.Object) : t :=
  withBase a (Animation.updateParams (base a) newParams).
Definition play (a : t) : t := withBase a (Animation.play (base a)).
Definition pause (a : t) : t := withBase a (Animation.pause (base a)).

End ParticleSystem.

(* ===================================================================== *)
(** * [class PerlinNoise extends Animation] *)
(* ===================================================================== *)

Module PerlinNoise.

Import JS.
Local Open Scope Q_scope.

Record Own := mkOwn {
  scale : Q;
  octaves : nat;
  persistence : Q;
  lacunarity : Q;
  timeSpeed : Q;
  colorMode : string;
  brightness : Q
}.

Definition assignOwn (o : Own) (a : Param.Assign) : Own :=
  let 'mkOwn sc oc pe la ts cm br := o in
  match a with
  | Param.scale v => mkOwn v oc pe la ts cm br
  | Param.octaves v => mkOwn sc v pe la ts cm br
  | Param.persistence v => mkOwn sc oc v la ts cm br
  | Param.lacunarity v => mkOwn sc oc pe v ts cm br
  | Param.timeSpeed v => mkOwn sc oc pe la v cm br
  | Param.colorMode v => mkOwn sc oc pe la ts v br
  | Param.brightness v => mkOwn sc oc pe la ts cm v
  | _ => o
  end.

#[export] Instance variant : Animation.Variant Own := {|
  Animation.getDefaultParams :=
    Animation.baseDefaults
      {| scale := 0.01; octaves := 4; persistence := 0.5; lacunarity := 2.0;
         timeSpeed := 1.0; colorMode := "rainbow"; brightness := 1.0 |};
  Animation.assignOwn := assignOwn
|}.

(** The permutation table: an array of 512 integers. *)
Abbreviation Table := (list Z).

Record t := mk {
  base : Animation.t Own;
  noiseOffset : Q;
  permutation : Table
}.

(** [[p[i], p[j]] = [p[j], p[i]]].  Both indices are inside the array
    whenever [j <= i < 256], which holds for every draw in [[0, 1)];
    with an index outside (where the source would store [undefined]) the
    table is left as it is. *)
Definition swap (p : Table) (i j : nat) : Table :=
  match p !! i, p !! j with
  | Some a, Some b => <[j := a]> (<[i := b]> p)
  | _, _ => p
  end.

(** [for (let i = 255; i > 0; i--)], at loop index [i], the next draw
    being number [k]. *)
Fixpoint shuffle (random : Random) (k : nat) (i : nat) (p : Table) : Table :=
  match i with
  | O => p
  | S i' =>
      let j := Z.to_nat (Math_floor (random k * inject_Z (Z.of_nat (i + 1)))) in
      shuffle random (S k) i' (swap p i j)
  end.

Definition generatePermutation (random : Random) : Table :=
  let p := map Z.of_nat (seq 0 256) in
  let p := shuffle random 0 255 p in
  p ++ p.

(** [p[i]]: an index outside the array reads [undefined], and the
    arithmetic that follows yields [NaN]; both are [None] here. *)
Definition at_ (p : Table) (i : Z) : option Z :=
  if (i <? 0)%Z then None else p !! Z.to_nat i.

Definition fade (t : Q) : Q := t * t * t * (t * (t * 6 - 15) + 10).

Definition lerp (a b t : Q) : Q := a + t * (b - a).

Definition grad (hash : Z) (x y z : Q) : Q :=
  let h := Z.land hash 15 in
  let u := if (h <? 8)%Z then x else y in
  let v := if (h <? 4)%Z then y
           else if (h =? 12)%Z || (h =? 14)%Z then x else z in
  (if (Z.land h 1 =? 0)%Z then u else - u)
  + (if (Z.land h 2 =? 0)%Z then v else - v).

Definition noise (p : Table) (x y z : Q) : option Q :=
  let X := Z.land (Math_floor x) 255 in
  let Y := Z.land (Math_floor y) 255 in
  let Z_ := Z.land (Math_floor z) 255 in
  let x := x - inject_Z (Math_floor x) in
  let y := y - inject_Z (Math_floor y) in
  let z := z - inject_Z (Math_floor z) in
  let u := fade x in
  let v := fade y in
  let w := fade z in
  pX ← at_ p X;
  let A := (pX + Y)%Z in
  pA ← at_ p A;
  let AA := (pA + Z_)%Z in
  pA1 ← at_ p (A + 1);
  let AB := (pA1 + Z_)%Z in
  pX1 ← at_ p (X + 1);
  let B := (pX1 + Y)%Z in
  pB ← at_ p B;
  let BA := (pB + Z_)%Z in
  pB1 ← at_ p (B + 1);
  let BB := (pB1 + Z_)%Z in
  pAA ← at_ p AA;
  pBA ← at_ p BA;
  pAB ← at_ p AB;
  pBB ← at_ p BB;
  pAA1 ← at_ p (AA + 1);
  pBA1 ← at_ p (BA + 1);
  pAB1 ← at_ p (AB + 1);
  pBB1 ← at_ p (BB + 1);
  Some
    (lerp
       (lerp
          (lerp (grad pAA x y z)
                (grad pBA (x - 1) y z) u)
          (lerp (grad pAB x (y - 1) z)
                (grad pBB (x - 1) (y - 1) z) u) v)
       (lerp
          (lerp (grad pAA1 x y (z - 1))
                (grad pBA1 (x - 1) y (z - 1)) u)
          (lerp (grad pAB1 x (y - 1) (z - 1))
                (grad pBB1 (x - 1) (y - 1) (z - 1)) u) v) w).

(** The [for] loop of [fractalNoise] with [n] octaves left; it returns
    [value] and [maxValue]. *)
Fixpoint octaveLoop (p : Table) (x y z : Q) (persistence lacunarity : Q)
    (n : nat) (value amplitude frequency maxValue : Q) : option (Q * Q) :=
  match n with
  | O => Some (value, maxValue)
  | S n' =>
      sample ← noise p (x * frequency) (y * frequency) (z * frequency);
      octaveLoop p x y z persistence lacunarity n'
        (value + sample * amplitude)
        (amplitude * persistence)
        (frequency * lacunarity)
        (maxValue + amplitude)
  end.

(** [value / maxValue]; a division by zero yields no finite number. *)
Definition fractalNoise (p : Table) (x y z : Q) (octaves : nat)
    (persistence lacunarity : Q) : option Q :=
  '(value, maxValue) ← octaveLoop p x y z persistence lacunarity octaves 0 1 1 0;
  if Qeq_bool maxValue 0 then None else Some (value / maxValue).

Definition constructor (random : Random) (canvas : Canvas.t) (params : Param.Object) : t :=
  {| base := Animation.constructor canvas params;
     noiseOffset := 0;
     permutation := generatePermutation random |}.

(** Inherited. *)
Definition update (a : t) (deltaTime : Q) : t :=
  {| base := Animation.update (base a) deltaTime;
     noiseOffset := noiseOffset a;
     permutation := permutation a |}.

Definition reset (a : t) : t :=
  {| base := Animation.reset (base a);
     noiseOffset := noiseOffset a;
     permutation := permutation a |}.

Definition withBase (a : t) (b : Animation.t Own) : t :=
  {| base := b; noiseOffset := noiseOffset a; permutation := permutation a |}.

(** The point of the noise field that pixel [(x, y)] samples when the
    time offset is [offset]. *)
Definition samplePoint (o : Own) (offset : Q) (x y : Z) : Q * Q * Q :=
  (inject_Z x * scale o, inject_Z y * scale o, offset).

(** The colour of a pixel whose noise value is [noiseValue]. *)
Definition colorize (a : t) (noiseValue : Q) : Q * Q * Q :=
  let b := base a in
  let o := Animation.own (Animation.params b) in
  let normalized := (noiseValue + 1) / 2 in
  if String.eqb (colorMode o) "rainbow" then
    let hue := rem (normalized + Animation.time b * 0.0001) 1.0 in
    let '(r, g, b) := Animation.hsvToRgb hue 0.8 (normalized * brightness o) in
    (inject_Z r, inject_Z g, inject_Z b)
  else if String.eqb (colorMode o) "fire" then
    let intensity := normalized * brightness o in
    (Math_min 255 (intensity * 255 * 2),
     Math_min 255 (intensity * 255 * 1.5),
     Math_min 255 (intensity * 255 * 0.5))
  else
    let intensity := normalized * brightness o * 255 in
    (intensity, intensity, intensity).

(** The body of the inner loop of [render]: the four writes of pixel
    [(x, y)].  A noise value that is no number makes the three colour
    channels no number in each colour mode. *)
Definition pixel (a : t) (offset : Q) (x y : Z) : list Canvas.Write :=
  let b := base a in
  let o := Animation.own (Animation.params b) in
  let '(sx, sy, sz) := samplePoint o offset x y in
  let noiseValue :=
    fractalNoise (permutation a) sx sy sz
      (octaves o) (persistence o) (lacunarity o) in
  let index := ((y * Animation.width b + x) * 4)%Z in
  let rgb := colorize a <$> noiseValue in
  [(index, (fun c => c.1.1) <$> rgb);
   ((index + 1)%Z, (fun c => c.1.2) <$> rgb);
   ((index + 2)%Z, (fun c => c.2) <$> rgb);
   ((index + 3)%Z, Some 255)].

(** The pixel coordinates in loop order: [x] outside, [y] inside. *)
Definition pixels (width height : Z) : list (Z * Z) :=
  x ← map Z.of_nat (seq 0 (Z.to_nat width));
  y ← map Z.of_nat (seq 0 (Z.to_nat height));
  [(x, y)].

(** [this.noiseOffset += timeSpeed * 0.01], the first statement of
    [render] after [super.render()]. *)
Definition advance (a : t) : Q :=
  noiseOffset a + timeSpeed (Animation.own (Animation.params (base a))) * 0.01.

Definition render (a : t) : t :=
  let b := Animation.render (base a) in
  let offset := advance a in
  let writes :=
    '(x, y) ← pixels (Animation.width b) (Animation.height b);
    pixel a offset x y in
  {| base := Animation.withCtx b (Canvas.putImageData writes (Animation.ctx b));
     noiseOffset := offset;
     permutation := permutation a |}.

End PerlinNoise.

(* ===================================================================== *)
(** * [class Fractal extends Animation] *)
(* ===================================================================== *)

Module Fractal.

Import JS.
Local Open Scope Q_scope.

Record Own := mkOwn {
  maxIterations : nat;
  zoomSpeed : Q;
  colorSpeed : Q;
  fractalType : string;
  colorMode : string;
  brightness : Q;
  contrast : Q;
  centerX : Q;
  centerY : Q
}.

Definition assignOwn (o : Own) (a : Param.Assign) : Own :=
  let 'mkOwn mi zs cs ft cm br co cx cy := o in
  match a with
  | Param.maxIterations v => mkOwn v zs cs ft cm br co cx cy
  | Param.zoomSpeed v => mkOwn mi v cs ft cm br co cx cy
  | Param.colorSpeed v => mkOwn mi zs v ft cm br co cx cy
  | Param.fractalType v => mkOwn mi zs cs v cm br co cx cy
  | Param.colorMode v => mkOwn mi zs cs ft v br co cx cy
  | Param.brightness v => mkOwn mi zs cs ft cm v co cx cy
  | Param.contrast v => mkOwn mi zs cs ft cm br v cx cy
  | Param.centerX v => mkOwn mi zs cs ft cm br co v cy
  | Param.centerY v => mkOwn mi zs cs ft cm br co cx v
  | _ => o
  end.

#[export] Instance variant : Animation.Variant Own := {|
  Animation.getDefaultParams :=
    Animation.baseDefaults
      {| maxIterations := 100; zoomSpeed := 1.0; colorSpeed := 1.0;
         fractalType := "mandelbrot"; colorMode := "rainbow";
         brightness := 1.0; contrast := 1.0;
         centerX := -0.5; centerY := 0.0 |};
  Animation.assignOwn := assignOwn
|}.

Record t := mk {
  base : Animation.t Own;
  zoom : Q;
  colorOffset : Q
}.

(** The variables of the escape loops. *)
Record Orbit := mkOrbit {
  x : Q;
  y : Q;
  x2 : Q;
  y2 : Q;
  iter : nat
}.

(** [while (cond) body], unrolled at most [fuel] times. *)
Fixpoint while {S : Type} (fuel : nat) (cond : S -> bool) (body : S -> S) (s : S) : S :=
  match fuel with
  | O => s
  | Datatypes.S fuel' => if cond s then while fuel' cond body (body s) else s
  end.

(** [x2 + y2 <= 4 && iter < maxIter]. *)
Definition inside (maxIter : nat) (o : Orbit) : bool :=
  leb (x2 o + y2 o) 4 && (iter o <? maxIter)%nat.

Definition mandelbrotStep (cx cy : Q) (o : Orbit) : Orbit :=
  let y' := 2 * x o * y o + cy in
  let x' := x2 o - y2 o + cx in
  {| x := x'; y := y'; x2 := x' * x'; y2 := y' * y'; iter := Datatypes.S (iter o) |}.

Definition burningShipStep (cx cy : Q) (o : Orbit) : Orbit :=
  let y' := 2 * Math_abs (x o * y o) + cy in
  let x' := x2 o - y2 o + cx in
  {| x := x'; y := y'; x2 := x' * x'; y2 := y' * y'; iter := Datatypes.S (iter o) |}.

(** The smooth colouring of an orbit that left the loop before
    [maxIter]; [Math.log] is [ln]. *)
Definition smooth (o : Orbit) : R :=
  let log_zn := (ln (Q2R (x2 o + y2 o)) / 2)%R in
  let nu := (ln (log_zn / ln 2) / ln 2)%R in
  (INR (iter o) + 1 - nu)%R.

(** What follows the loop: [if (iter === maxIter) return 0; ...]. *)
Definition escapeCount (maxIter : nat) (o : Orbit) : R :=
  if (iter o =? maxIter)%nat then 0%R else smooth o.

(** The loops run at most [maxIter] times, [iter] counting up from 0. *)
Definition mandelbrotOrbit (cx cy : Q) (maxIter : nat) : Orbit :=
  while maxIter (inside maxIter) (mandelbrotStep cx cy)
    {| x := 0; y := 0; x2 := 0; y2 := 0; iter := 0 |}.

Definition mandelbrot (cx cy : Q) (maxIter : nat) : R :=
  escapeCount maxIter (mandelbrotOrbit cx cy maxIter).

Record Complex := mkComplex { re : Q; im : Q }.


Definition juliaOrbit (cx cy : Q) (maxIter : nat) (c : Complex) : Orbit :=
  while maxIter (inside maxIter) (mandelbrotStep (re c) (im c))
    {| x := cx; y := cy; x2 := cx * cx; y2 := cy * cy; iter := 0 |}.


Definition burningShipOrbit (cx cy : Q) (maxIter : nat) : Orbit :=
  while maxIter (inside maxIter) (burningShipStep cx cy)
    {| x := 0; y := 0; x2 := 0; y2 := 0; iter := 0 |}.


Definition constructor (canvas : Canvas.t) (params : Param.Object) : t :=
  {| base := Animation.withCenter (Animation.constructor canvas params) (-0.5) 0;
     zoom := 1;
     colorOffset := 0 |}.

Definition update (a : t) (deltaTime : Q) : t :=
  let b := Animation.update (base a) deltaTime in
  if Animation.isPlaying b then
    let o := Animation.own (Animation.params b) in
    {| base := Animation.withCenter b (centerX o) (centerY o);
       zoom := zoom a * (1 + zoomSpeed o * 0.01 * deltaTime * 0.001);
       colorOffset := colorOffset a + colorSpeed o * deltaTime * 0.0001 |}
  else
    {| base := b; zoom := zoom a; colorOffset := colorOffset a |}.

Definition reset (a : t) : t :=
  let b := Animation.reset (base a) in
  let o := Animation.own (Animation.params b) in
  {| base := Animation.withCenter b (centerX o) (centerY o);
     zoom := 1;
     colorOffset := 0 |}.

Definition withBase (a : t) (b : Animation.t Own) : t :=
  {| base := b; zoom := zoom a; colorOffset := colorOffset a |}.

End Fractal.

(* ===================================================================== *)
(** * [class Spirograph extends Animation] *)
(* ===================================================================== *)

Module Spirograph.

Import JS.
Local Open Scope Q_scope.

Record Own := mkOwn {
  R : Q;
  r : Q;
  d : Q;
  spiralSpeed : Q;
  colorShift : Q
}.

Definition assignOwn (o : Own) (a : Param.Assign) : Own :=
  let 'mkOwn R_ r_ d_ ss cs := o in
  match a with
  | Param.R v => mkOwn v r_ d_ ss cs
  | Param.r v => mkOwn R_ v d_ ss cs
  | Param.d v => mkOwn R_ r_ v ss cs
  | Param.spiralSpeed v => mkOwn R_ r_ d_ v cs
  | Param.colorShift v => mkOwn R_ r_ d_ ss v
  | _ => o
  end.

(** The variant's defaults replace the base [trailFade]. *)
#[export] Instance variant : Animation.Variant Own := {|
  Animation.getDefaultParams :=
    {| Animation.speed := 1.0; Animation.trails := false;
       Animation.trailFade := 0.99;
       Animation.own :=
         {| R := 100; r := 30; d := 50; spiralSpeed := 1.0; colorShift := 0.0 |} |};
  Animation.assignOwn := assignOwn
|}.

Record TrailPoint := mkTrailPoint { x : Q; y : Q; time : Q }.

Record t := mk {
  base : Animation.t Own;
  trailPoints : list TrailPoint
}.

Definition constructor (canvas : Canvas.t) (params : Param.Object) : t :=
  {| base := Animation.constructor canvas params; trailPoints := [] |}.

(** Inherited. *)
Definition update (a : t) (deltaTime : Q) : t :=
  {| base := Animation.update (base a) deltaTime; trailPoints := trailPoints a |}.

Definition reset (a : t) : t :=
  {| base := Animation.reset (base a); trailPoints := trailPoints a |}.

Definition withBase (a : t) (b : Animation.t Own) : t :=
  {| base := b; trailPoints := trailPoints a |}.

(** [arr.slice(-n)]: the last [n] elements. *)
Definition lastN {A} (n : nat) (l : list A) : list A :=
  drop (length l - n) l.

Section Render.

(** [Math.cos] and [Math.sin], provided by the host. *)
Variables Math_cos Math_sin : Q -> Q.

(** [render]: the fade rectangle, the sampled point joining the trail
    when it is on the surface, the trail cut to its last 2000 points.
    The discs drawn for the trail points are not recorded. *)
Definition render (a : t) : t :=
  let b := base a in
  let o := Animation.own (Animation.params b) in
  let b :=
    Animation.withCtx b
      (Canvas.fillRect 0 0 (inject_Z (Animation.width b)) (inject_Z (Animation.height b))
         (Canvas.setFillStyle
            (Canvas.Rgba 0 0 0 (1 - Animation.trailFade (Animation.params b)))
            (Animation.ctx b))) in
  let t := Animation.time b * spiralSpeed o * 0.01 in
  let ratio := (R o - r o) / r o in
  let x := (R o - r o) * Math_cos t + d o * Math_cos (ratio * t) in
  let y := (R o - r o) * Math_sin t - d o * Math_sin (ratio * t) in
  let centerX := Animation.centerX b + x in
  let centerY := Animation.centerY b + y in
  let points :=
    if leb 0 centerX && ltb centerX (inject_Z (Animation.width b))
       && leb 0 centerY && ltb centerY (inject_Z (Animation.height b))
    then trailPoints a ++ [{| x := centerX; y := centerY; time := t |}]
    else trailPoints a in
  {| base := b;
     trailPoints :=
       if (2000 <? length points)%nat then lastN 2000 points else points |}.

End Render.

End Spirograph.

(* ===================================================================== *)
(** * Instances of the six variants *)
(* ===================================================================== *)

Module Instance.

Local Open Scope Q_scope.

Inductive t :=
| OfRotatingPolygons (a : RotatingPolygons.t)
| OfWaveInterference (a : WaveInterference.t)
| OfParticleSystem (a : ParticleSystem.t)
| OfPerlinNoise (a : PerlinNoise.t)
| OfFractal (a : Fractal.t)
| OfSpirograph (a : Spirograph.t).

(** The method calls [a.update(deltaTime)], [a.reset()], ..., resolved
    through the class of [a]. *)
Definition update (a : t) (deltaTime : Q) : t :=
  match a with
  | OfRotatingPolygons a => OfRotatingPolygons (RotatingPolygons.update a deltaTime)
  | OfWaveInterference a => OfWaveInterference (WaveInterference.update a deltaTime)
  | OfParticleSystem a => OfParticleSystem (ParticleSystem.update a deltaTime)
  | OfPerlinNoise a => OfPerlinNoise (PerlinNoise.update a deltaTime)
  | OfFractal a => OfFractal (Fractal.update a deltaTime)
  | OfSpirograph a => OfSpirograph (Spirograph.update a deltaTime)
  end.

Definition reset (a : t) : t :=
  match a with
  | OfRotatingPolygons a => OfRotatingPolygons (RotatingPolygons.reset a)
  | OfWaveInterference a => OfWaveInterference (WaveInterference.reset a)
  | OfParticleSystem a => OfParticleSystem (ParticleSystem.reset a)
  | OfPerlinNoise a => OfPerlinNoise (PerlinNoise.reset a)
  | OfFractal a => OfFractal (Fractal.reset a)
  | OfSpirograph a => OfSpirograph (Spirograph.reset a)
  end.

(** A method of the base class that no variant overrides, applied to
    the inherited part of the instance. *)
Definition inherited (f : forall V, Animation.Variant V -> Animation.t V -> Animation.t V)
    (a : t) : t :=
  match a with
  | OfRotatingPolygons a =>
      OfRotatingPolygons (RotatingPolygons.withBase a (f _ RotatingPolygons.variant (RotatingPolygons.base a)))
  | OfWaveInterference a =>
      OfWaveInterference (WaveInterference.withBase a (f _ WaveInterference.variant (WaveInterference.base a)))
  | OfParticleSystem a =>
      OfParticleSystem (ParticleSystem.withBase a (f _ ParticleSystem.variant (ParticleSystem.base a)))
  | OfPerlinNoise a =>
      OfPerlinNoise (PerlinNoise.withBase a (f _ PerlinNoise.variant (PerlinNoise.base a)))
  | OfFractal a =>
      OfFractal (Fractal.withBase a (f _ Fractal.variant (Fractal.base a)))
  | OfSpirograph a =>
      OfSpirograph (Spirograph.withBase a (f _ Spirograph.variant (Spirograph.base a)))
  end.

Definition play : t -> t := inherited (fun V _ => Animation.play).
Definition pause : t -> t := inherited (fun V _ => Animation.pause).
Definition updateParams (a : t) (newParams : Param.Object) : t :=
  inherited (fun V _ b => Animation.updateParams b newParams) a.

(** Reading a field of the inherited state. *)
Definition read {A} (f : forall V, Animation.t V -> A) (a : t) : A :=
  match a with
  | OfRotatingPolygons a => f _ (RotatingPolygons.base a)
  | OfWaveInterference a => f _ (WaveInterference.base a)
  | OfParticleSystem a => f _ (ParticleSystem.base a)
  | OfPerlinNoise a => f _ (PerlinNoise.base a)
  | OfFractal a => f _ (Fractal.base a)
  | OfSpirograph a => f _ (Spirograph.base a)
  end.

Definition isPlaying : t -> bool := read (fun V => Animation.isPlaying).
Definition frame : t -> Z := read (fun V => Animation.frame).
Definition time : t -> Q := read (fun V => Animation.time).
Definition speed : t -> Q := read (fun V a => Animation.speed (Animation.params a)).

End Instance.

(* ===================================================================== *)
(** * The registry and [createAnimation] *)
(* ===================================================================== *)

Module Registry.

Inductive Class :=
| RotatingPolygons | WaveInterference | ParticleSystem
| PerlinNoise | Fractal | Spirograph.

(** The own properties of the object literal [ANIMATIONS]. *)
Definition ANIMATIONS : gmap string Class :=
  list_to_map
    [("rotating_polygons", RotatingPolygons);
     ("wave_interference", WaveInterference);
     ("particle_system", ParticleSystem);
     ("perlin_noise", PerlinNoise);
     ("fractal", Fractal);
     ("spirograph", Spirograph)].

(** What [ANIMATIONS[type]] can evaluate to.  [ANIMATIONS] is an object
    literal, so a key that is not its own is looked up in
    [Object.prototype]. *)
Inductive Value :=
| AClass (c : Class)
| ObjectFunction      (* [Object], found under "constructor" *)
| BuiltinMethod       (* a method of [Object.prototype]: callable, no constructor *)
| PrototypeObject     (* [Object.prototype] itself, found under "__proto__" *)
| Undefined.

(** The properties that ECMAScript puts on [Object.prototype]. *)
Definition Object_prototype : gmap string Value :=
  list_to_map
    [("constructor", ObjectFunction);
     ("hasOwnProperty", BuiltinMethod);
     ("isPrototypeOf", BuiltinMethod);
     ("propertyIsEnumerable", BuiltinMethod);
     ("toLocaleString", BuiltinMethod);
     ("toString", BuiltinMethod);
     ("valueOf", BuiltinMethod);
     ("__defineGetter__", BuiltinMethod);
     ("__defineSetter__", BuiltinMethod);
     ("__lookupGetter__", BuiltinMethod);
     ("__lookupSetter__", BuiltinMethod);
     ("__proto__", PrototypeObject)].

(** [ANIMATIONS[type]]. *)
Definition get (type : string) : Value :=
  match ANIMATIONS !! type with
  | Some c => AClass c
  | None => default Undefined (Object_prototype !! type)
  end.

(** [!v]: only [undefined] is falsy among these values. *)
Definition falsy (v : Value) : bool :=
  match v with Undefined => true | _ => false end.

Inductive Outcome :=
| Returned (a : Instance.t)
| ReturnedObject (canvas : Canvas.t)  (* [new Object(canvas, params)] is [canvas] *)
| ThrownError (message : string)
| ThrownTypeError.                    (* [new] of a value that is no constructor *)

(** [new C(canvas, params)] for the six classes. *)
Definition construct (c : Class) (random : Random) (canvas : Canvas.t)
    (params : Param.Object) : Instance.t :=
  match c with
  | RotatingPolygons =>
      Instance.OfRotatingPolygons (RotatingPolygons.constructor canvas params)
  | WaveInterference =>
      Instance.OfWaveInterference (WaveInterference.constructor canvas params)
  | ParticleSystem =>
      Instance.OfParticleSystem (ParticleSystem.constructor random canvas params)
  | PerlinNoise =>
      Instance.OfPerlinNoise (PerlinNoise.constructor random canvas params)
  | Fractal =>
      Instance.OfFractal (Fractal.constructor canvas params)
  | Spirograph =>
      Instance.OfSpirograph (Spirograph.constructor canvas params)
  end.

Definition createAnimation (random : Random) (type : string) (canvas : Canvas.t)
    (params : Param.Object) : Outcome :=
  let v := get type in
  if falsy v then ThrownError ("Unknown animation type: " ++ type)
  else
    match v with
    | AClass c => Returned (construct c random canvas params)
    | ObjectFunction => ReturnedObject canvas
    | _ => ThrownTypeError
    end.

(** The class of an instance. *)
Definition classOf (a : Instance.t) : Class :=
  match a with
  | Instance.OfRotatingPolygons _ => RotatingPolygons
  | Instance.OfWaveInterference _ => WaveInterference
  | Instance.OfParticleSystem _ => ParticleSystem
  | Instance.OfPerlinNoise _ => PerlinNoise
  | Instance.OfFractal _ => Fractal
  | Instance.OfSpirograph _ => Spirograph
  end.

(** The six keys of the registry. *)
Definition keys : list string :=
  ["rotating_polygons"; "wave_interference"; "particle_system";
   "perlin_noise"; "fractal"; "spirograph"].

End Registry.

(* ===================================================================== *)
(** * The driver's reset ([PsychedelicApp.reset] in [app.js]) *)
(* ===================================================================== *)

Module PsychedelicApp.

(** [this.animation.reset()], then [initializeParticles()] when the
    instance has that method, then [trailPoints = []] when the instance
    has that array. *)
Definition reset (random : Random) (animation : Instance.t) : Instance.t :=
  match Instance.reset animation with
  | Instance.OfParticleSystem a =>
      Instance.OfParticleSystem (ParticleSystem.initializeParticles random a)
  | Instance.OfSpirograph a =>
      Instance.OfSpirograph
        {| Spirograph.base := Spirograph.base a; Spirograph.trailPoints := [] |}
  | a => a
  end.

End PsychedelicApp.

(* ===================================================================== *)
(** * Sequences of method calls on a particle system *)
(* ===================================================================== *)

Module Calls.

(** The calls a driver makes on a [ParticleSystem], in any order. *)
Inductive Call :=
| Update (deltaTime : Q)
| UpdateParams (newParams : Param.Object)
| Play
| Pause
| Reset.

Definition call (a : ParticleSystem.t) (c : Call) : ParticleSystem.t :=
  match c with
  | Update deltaTime => ParticleSystem.update a deltaTime
  | UpdateParams newParams => ParticleSystem.updateParams a newParams
  | Play => ParticleSystem.play a
  | Pause => ParticleSystem.pause a
  | Reset => ParticleSystem.reset a
  end.

Definition run (cs : list Call) (a : ParticleSystem.t) : ParticleSystem.t :=
  fold_left call cs a.

End Calls.

(* ===================================================================== *)
(** * Concrete instances used below *)
(* ===================================================================== *)

Module Sample.

Local Open Scope Q_scope.

(** A blank 100 x 100 canvas. *)
Definition canvas : Canvas.t :=
  {| Canvas.width := 100; Canvas.height := 100;
     Canvas.context := {| Canvas.fillStyle := Canvas.Black; Canvas.drawn := [] |} |}.

(** [Math.random] returning 0.5 at every call. *)
Definition half : Random := fun _ => 0.5.

(** A blank canvas of two pixels side by side. *)
Definition strip : Canvas.t :=
  {| Canvas.width := 2; Canvas.height := 1;
     Canvas.context := {| Canvas.fillStyle := Canvas.Black; Canvas.drawn := [] |} |}.

(** One particle, default parameters otherwise. *)
Definition oneParticle : ParticleSystem.t :=
  ParticleSystem.constructor half canvas [Param.particleCount 1].

(** ... played for one frame of 16 ms. *)
Definition oneParticleMoved : ParticleSystem.t :=
  Calls.run [Calls.Play; Calls.Update 16] oneParticle.

(** ... played for twenty frames, then [trailLength] lowered from its
    default 20 to 5 ... *)
Definition trailFull : ParticleSystem.t :=
  Calls.run
    (Calls.Play :: repeat (Calls.Update 16) 20
       ++ [Calls.UpdateParams [Param.trailLength 5]])
    oneParticle.

(** ... then one more frame. *)
Definition trailLowered : ParticleSystem.t :=
  Calls.call trailFull (Calls.Update 16).

(** The exchanges of the shuffle of [generatePermutation] below: loop
    index and picked index.  At every other loop index [i] the shuffle
    picks [i] itself. *)
Definition exchanges : list (nat * nat) :=
  [(87, 61); (86, 51); (71, 41); (70, 31); (67, 21); (66, 11); (65, 1);
   (64, 0); (60, 21); (51, 41); (50, 1); (40, 11); (30, 0); (20, 1);
   (10, 0)]%nat.

Definition picked (i : nat) : nat :=
  match find (fun e => Nat.eqb (fst e) i) exchanges with
  | Some e => snd e
  | None => i
  end.

(** Draws of [Math.random] that make the shuffle pick those indices:
    draw number [k] serves loop index [i = 255 - k] and lies in the
    middle of the interval that [Math.floor(r * (i + 1))] maps to
    [picked i]. *)
Definition shuffleDraws : Random :=
  fun k =>
    let i := (255 - k)%nat in
    (inject_Z (Z.of_nat (picked i)) + 0.5) / inject_Z (Z.of_nat (i + 1)).

Definition table : PerlinNoise.Table :=
  PerlinNoise.generatePermutation shuffleDraws.

End Sample.

(* ===================================================================== *)
(** * Reading parameters by key *)
(* ===================================================================== *)

(** The driver reads [animation.params[key]] for the keys of a control
    schema.  The parameter object of an instance is listed here as the
    assignments of an object literal, in the order of [getDefaultParams]. *)
Module Keys.

Inductive Value :=
| Num (v : Q)
| Count (v : nat)
| Flag (v : bool)
| Text (v : string).

Definition key (a : Param.Assign) : string :=
  match a with
  | Param.speed _ => "speed" | Param.trails _ => "trails"
  | Param.trailFade _ => "trailFade"
  | Param.numPolygons _ => "numPolygons" | Param.sides _ => "sides"
  | Param.maxRadius _ => "maxRadius" | Param.minRadius _ => "minRadius"
  | Param.rotationSpeed _ => "rotationSpeed" | Param.colorShift _ => "colorShift"
  | Param.lineWidth _ => "lineWidth"
  | Param.frequency1 _ => "frequency1" | Param.frequency2 _ => "frequency2"
  | Param.amplitude _ => "amplitude" | Param.waveSpeed _ => "waveSpeed"
  | Param.colorMode _ => "colorMode"
  | Param.particleCount _ => "particleCount" | Param.gravity _ => "gravity"
  | Param.bounceDamping _ => "bounceDamping" | Param.airDamping _ => "airDamping"
  | Param.trailLength _ => "trailLength"
  | Param.scale _ => "scale" | Param.octaves _ => "octaves"
  | Param.persistence _ => "persistence" | Param.lacunarity _ => "lacunarity"
  | Param.timeSpeed _ => "timeSpeed" | Param.brightness _ => "brightness"
  | Param.maxIterations _ => "maxIterations" | Param.zoomSpeed _ => "zoomSpeed"
  | Param.colorSpeed _ => "colorSpeed" | Param.fractalType _ => "fractalType"
  | Param.contrast _ => "contrast"
  | Param.centerX _ => "centerX" | Param.centerY _ => "centerY"
  | Param.R _ => "R" | Param.r _ => "r" | Param.d _ => "d"
  | Param.spiralSpeed _ => "spiralSpeed"
  end.

Definition value (a : Param.Assign) : Value :=
  match a with
  | Param.speed v | Param.trailFade v
  | Param.maxRadius v | Param.minRadius v | Param.rotationSpeed v
  | Param.colorShift v | Param.lineWidth v
  | Param.frequency1 v | Param.frequency2 v | Param.amplitude v
  | Param.waveSpeed v
  | Param.gravity v | Param.bounceDamping v | Param.airDamping v
  | Param.scale v | Param.persistence v | Param.lacunarity v
  | Param.timeSpeed v | Param.brightness v
  | Param.zoomSpeed v | Param.colorSpeed v | Param.contrast v
  | Param.centerX v | Param.centerY v
  | Param.R v | Param.r v | Param.d v | Param.spiralSpeed v => Num v
  | Param.numPolygons v | Param.sides v | Param.particleCount v
  | Param.trailLength v | Param.octaves v | Param.maxIterations v => Count v
  | Param.trails v => Flag v
  | Param.colorMode v | Param.fractalType v => Text v
  end.

(** The three keys of the base class. *)
Definition base {V} (p : Animation.Params V) : Param.Object :=
  [Param.speed (Animation.speed p); Param.trails (Animation.trails p);
   Param.trailFade (Animation.trailFade p)].

Definition rotatingPolygons (o : RotatingPolygons.Own) : Param.Object :=
  [Param.numPolygons (RotatingPolygons.numPolygons o);
   Param.sides (RotatingPolygons.sides o);
   Param.maxRadius (RotatingPolygons.maxRadius o);
   Param.minRadius (RotatingPolygons.minRadius o);
   Param.rotationSpeed (RotatingPolygons.rotationSpeed o);
   Param.colorShift (RotatingPolygons.colorShift o);
   Param.lineWidth (RotatingPolygons.lineWidth o)].

Definition waveInterference (o : WaveInterference.Own) : Param.Object :=
  [Param.frequency1 (WaveInterference.frequency1 o);
   Param.frequency2 (WaveInterference.frequency2 o);
   Param.amplitude (WaveInterference.amplitude o);
   Param.waveSpeed (WaveInterference.waveSpeed o);
   Param.colorMode (WaveInterference.colorMode o)].

Definition particleSystem (o : ParticleSystem.Own) : Param.Object :=
  [Param.particleCount (ParticleSystem.particleCount o);
   Param.gravity (ParticleSystem.gravity o);
   Param.bounceDamping (ParticleSystem.bounceDamping o);
   Param.airDamping (ParticleSystem.airDamping o);
   Param.trailLength (ParticleSystem.trailLength o);
   Param.colorMode (ParticleSystem.colorMode o)].

Definition perlinNoise (o : PerlinNoise.Own) : Param.Object :=
  [Param.scale (PerlinNoise.scale o);
   Param.octaves (PerlinNoise.octaves o);
   Param.persistence (PerlinNoise.persistence o);
   Param.lacunarity (PerlinNoise.lacunarity o);
   Param.timeSpeed (PerlinNoise.timeSpeed o);
   Param.colorMode (PerlinNoise.colorMode o);
   Param.brightness (PerlinNoise.brightness o)].

Definition fractal (o : Fractal.Own) : Param.Object :=
  [Param.maxIterations (Fractal.maxIterations o);
   Param.zoomSpeed (Fractal.zoomSpeed o);
   Param.colorSpeed (Fractal.colorSpeed o);
   Param.fractalType (Fractal.fractalType o);
   Param.colorMode (Fractal.colorMode o);
   Param.brightness (Fractal.brightness o);
   Param.contrast (Fractal.contrast o);
   Param.centerX (Fractal.centerX o);
   Param.centerY (Fractal.centerY o)].

Definition spirograph (o : Spirograph.Own) : Param.Object :=
  [Param.R (Spirograph.R o);
   Param.r (Spirograph.r o);
   Param.d (Spirograph.d o);
   Param.spiralSpeed (Spirograph.spiralSpeed o);
   Param.colorShift (Spirograph.colorShift o)].

(** [animation.params], as an object literal. *)
Definition entries (a : Instance.t) : Param.Object :=
  match a with
  | Instance.OfRotatingPolygons a =>
      let p := Animation.params (RotatingPolygons.base a) in
      base p ++ rotatingPolygons (Animation.own p)
  | Instance.OfWaveInterference a =>
      let p := Animation.params (WaveInterference.base a) in
      base p ++ waveInterference (Animation.own p)
  | Instance.OfParticleSystem a =>
      let p := Animation.params (ParticleSystem.base a) in
      base p ++ particleSystem (Animation.own p)
  | Instance.OfPerlinNoise a =>
      let p := Animation.params (PerlinNoise.base a) in
      base p ++ perlinNoise (Animation.own p)
  | Instance.OfFractal a =>
      let p := Animation.params (Fractal.base a) in
      base p ++ fractal (Animation.own p)
  | Instance.OfSpirograph a =>
      let p := Animation.params (Spirograph.base a) in
      base p ++ spirograph (Animation.own p)
  end.

(** [params[k]] on an object literal: the value under the key, nothing
    ([undefined]) for a key the object does not have. *)
Definition lookup (k : string) (o : Param.Object) : option Value :=
  value <$> find (fun e => String.eqb (key e) k) o.

(** [animation.params[k]]. *)
Definition get (a : Instance.t) (k : string) : option Value :=
  lookup k (entries a).

End Keys.

(* ===================================================================== *)
(** * Control schemas *)
(* ===================================================================== *)

Module Schema.

Local Open Scope Q_scope.

Inductive Control :=
| Range (min max step : Q) (label : string)
| Select (options : list string) (label : string).

(** [getControlSchema()] of the six classes, as the list of the entries
    of the returned object. *)
Definition getControlSchema (c : Registry.Class) : list (string * Control) :=
  match c with
  | Registry.RotatingPolygons =>
      [("numPolygons", Range 1 10 1 "Polygons");
       ("sides", Range 3 12 1 "Sides");
       ("maxRadius", Range 50 300 10 "Max Radius");
       ("minRadius", Range 10 100 5 "Min Radius");
       ("rotationSpeed", Range 0.1 5.0 0.1 "Rotation Speed");
       ("colorShift", Range 0 1 0.01 "Color Shift");
       ("lineWidth", Range 1 10 0.5 "Line Width")]
  | Registry.WaveInterference =>
      [("frequency1", Range 0.01 0.1 0.001 "Frequency 1");
       ("frequency2", Range 0.01 0.1 0.001 "Frequency 2");
       ("amplitude", Range 10 100 5 "Amplitude");
       ("waveSpeed", Range 0.1 3.0 0.1 "Wave Speed");
       ("colorMode", Select ["rainbow"; "monochrome"] "Color Mode")]
  | Registry.ParticleSystem =>
      [("particleCount", Range 10 200 10 "Particle Count");
       ("gravity", Range 0 1 0.01 "Gravity");
       ("bounceDamping", Range 0.0 1.0 0.01 "Bounce Damping");
       ("airDamping", Range 0.0 1.0 0.01 "Air Damping");
       ("trailLength", Range 5 200 5 "Trail Length");
       ("colorMode", Select ["velocity"; "white"] "Color Mode")]
  | Registry.PerlinNoise =>
      [("scale", Range 0.001 0.05 0.001 "Scale");
       ("octaves", Range 1 8 1 "Octaves");
       ("persistence", Range 0.1 1.0 0.1 "Persistence");
       ("lacunarity", Range 1.0 4.0 0.1 "Lacunarity");
       ("timeSpeed", Range 0.1 5.0 0.1 "Time Speed");
       ("brightness", Range 0.1 2.0 0.1 "Brightness");
       ("colorMode", Select ["rainbow"; "fire"; "monochrome"] "Color Mode")]
  | Registry.Fractal =>
      [("fractalType", Select ["mandelbrot"; "julia"; "burning_ship"] "Fractal Type");
       ("maxIterations", Range 20 300 10 "Max Iterations");
       ("zoomSpeed", Range 0.0 5.0 0.1 "Zoom Speed");
       ("colorSpeed", Range 0.0 10.0 0.1 "Color Speed");
       ("centerX", Range (-2.0) 2.0 0.01 "Center X");
       ("centerY", Range (-2.0) 2.0 0.01 "Center Y");
       ("brightness", Range 0.1 2.0 0.1 "Brightness");
       ("contrast", Range 0.1 3.0 0.1 "Contrast");
       ("colorMode", Select ["rainbow"; "fire"; "ocean"; "monochrome"] "Color Mode")]
  | Registry.Spirograph =>
      [("R", Range 50 200 5 "Outer Radius");
       ("r", Range 10 80 1 "Inner Radius");
       ("d", Range 10 100 1 "Distance");
       ("spiralSpeed", Range 0.1 3.0 0.1 "Speed");
       ("colorShift", Range 0 1 0.01 "Color Shift");
       ("trailFade", Range 0.9 0.999 0.001 "Trail Fade")]
  end.

End Schema.

(* ===================================================================== *)
(** * Sequences of method calls on any instance *)
(* ===================================================================== *)

Module Driver.

(** The calls the driver makes on the active animation that change the
    state outside the canvas. *)
Inductive Call :=
| Update (deltaTime : Q)
| UpdateParams (newParams : Param.Object)
| Play
| Pause
| Reset.

Definition call (a : Instance.t) (c : Call) : Instance.t :=
  match c with
  | Update deltaTime => Instance.update a deltaTime
  | UpdateParams newParams => Instance.updateParams a newParams
  | Play => Instance.play a
  | Pause => Instance.pause a
  | Reset => Instance.reset a
  end.

Definition run (cs : list Call) (a : Instance.t) : Instance.t :=
  fold_left call cs a.

(** [togglePlayPause] of the driver, on the active animation. *)
Definition togglePlayPause (animation : Instance.t) : Instance.t :=
  if Instance.isPlaying animation
  then Instance.pause animation
  else Instance.play animation.

End Driver.

(* ===================================================================== *)
(** * Sequences of frames on a noise field and on a spirograph *)
(* ===================================================================== *)

Module Frames.

(** The calls on a [PerlinNoise], [render] included. *)
Inductive NoiseCall :=
| NoiseUpdate (deltaTime : Q)
| NoiseRender
| NoiseUpdateParams (newParams : Param.Object)
| NoisePlay
| NoisePause
| NoiseReset.

Definition noiseCall (a : PerlinNoise.t) (c : NoiseCall) : PerlinNoise.t :=
  match c with
  | NoiseUpdate deltaTime => PerlinNoise.update a deltaTime
  | NoiseRender => PerlinNoise.render a
  | NoiseUpdateParams newParams =>
      PerlinNoise.withBase a
        (Animation.updateParams (H := PerlinNoise.variant) (PerlinNoise.base a) newParams)
  | NoisePlay => PerlinNoise.withBase a (Animation.play (PerlinNoise.base a))
  | NoisePause => PerlinNoise.withBase a (Animation.pause (PerlinNoise.base a))
  | NoiseReset => PerlinNoise.reset a
  end.

Definition noiseRun (cs : list NoiseCall) (a : PerlinNoise.t) : PerlinNoise.t :=
  fold_left noiseCall cs a.

Definition isRender (c : NoiseCall) : bool :=
  match c with NoiseRender => true | _ => false end.

Section Spirograph.

Variables Math_cos Math_sin : Q -> Q.

(** The calls on a [Spirograph], [render] included. *)
Inductive SpiroCall :=
| SpiroUpdate (deltaTime : Q)
| SpiroRender
| SpiroUpdateParams (newParams : Param.Object)
| SpiroPlay
| SpiroPause
| SpiroReset.

Definition spiroCall (a : Spirograph.t) (c : SpiroCall) : Spirograph.t :=
  match c with
  | SpiroUpdate deltaTime => Spirograph.update a deltaTime
  | SpiroRender => Spirograph.render Math_cos Math_sin a
  | SpiroUpdateParams newParams =>
      Spirograph.withBase a
        (Animation.updateParams (H := Spirograph.variant) (Spirograph.base a) newParams)
  | SpiroPlay => Spirograph.withBase a (Animation.play (Spirograph.base a))
  | SpiroPause => Spirograph.withBase a (Animation.pause (Spirograph.base a))
  | SpiroReset => Spirograph.reset a
  end.

Definition spiroRun (cs : list SpiroCall) (a : Spirograph.t) : Spirograph.t :=
  fold_left spiroCall cs a.

End Spirograph.

End Frames.

(* ===================================================================== *)
(** * The properties stated below *)
(* ===================================================================== *)

(** Every trail buffer of the instance is empty: the trail of each
    particle, the trail of the spirograph. *)
Definition trailsEmpty (a : Instance.t) : bool :=
  match a with
  | Instance.OfParticleSystem a =>
      forallb (fun p => Nat.eqb (length (ParticleSystem.trail p)) 0)
              (ParticleSystem.particles a)
  | Instance.OfSpirograph a => Nat.eqb (length (Spirograph.trailPoints a)) 0
  | _ => true
  end.

(** What [reset] does to the state that a variant declares. *)
Definition resetOwnState (a a' : Instance.t) : Prop :=
  match a, a' with
  | Instance.OfRotatingPolygons a, Instance.OfRotatingPolygons a' =>
      RotatingPolygons.rotationPhase a' = 0%Q /\ RotatingPolygons.lastTime a' = 0%Q
  | Instance.OfFractal a, Instance.OfFractal a' =>
      Fractal.zoom a' = 1%Q /\ Fractal.colorOffset a' = 0%Q
      /\ Animation.centerX (Fractal.base a')
         = Fractal.centerX (Animation.own (Animation.params (Fractal.base a)))
      /\ Animation.centerY (Fractal.base a')
         = Fractal.centerY (Animation.own (Animation.params (Fractal.base a)))
  | Instance.OfParticleSystem a, Instance.OfParticleSystem a' =>
      ParticleSystem.particles a' = ParticleSystem.particles a
  | Instance.OfSpirograph a, Instance.OfSpirograph a' =>
      Spirograph.trailPoints a' = Spirograph.trailPoints a
  | Instance.OfWaveInterference _, Instance.OfWaveInterference _ => True
  | Instance.OfPerlinNoise a, Instance.OfPerlinNoise a' =>
      PerlinNoise.noiseOffset a' = PerlinNoise.noiseOffset a
      /\ PerlinNoise.permutation a' = PerlinNoise.permutation a
  | _, _ => False
  end.


Section SurfaceProperties.

Local Open Scope Q_scope.

(** The particle lies in [[0, width) x [0, height)]. *)
Definition insideSurface (width height : Z) (p : ParticleSystem.Particle) : Prop :=
  (0 <= ParticleSystem.x p /\ ParticleSystem.x p < inject_Z width)
  /\ (0 <= ParticleSystem.y p /\ ParticleSystem.y p < inject_Z height).

(** The particle lies in [[0, width] x [0, height]]. *)
Definition onSurface (width height : Z) (p : ParticleSystem.Particle) : Prop :=
  (0 <= ParticleSystem.x p /\ ParticleSystem.x p <= inject_Z width)
  /\ (0 <= ParticleSystem.y p /\ ParticleSystem.y p <= inject_Z height).

End SurfaceProperties.

(** The values of [trailLength] in force at the [update] calls of a
    sequence of calls. *)
Fixpoint caps (cs : list Calls.Call) (a : ParticleSystem.t) : list nat :=
  match cs with
  | [] => []
  | c :: cs' =>
      match c with
      | Calls.Update _ =>
          [ParticleSystem.trailLength
             (Animation.own (Animation.params (ParticleSystem.base a)))]
      | _ => []
      end ++ caps cs' (Calls.call a c)
  end.

Definition trailsWithin (bound : nat) (a : ParticleSystem.t) : Prop :=
  Forall (fun p => (length (ParticleSystem.trail p) <= bound)%nat)
         (ParticleSystem.particles a).

(** A table as [noise] needs it: 512 entries, each in [0 .. 255]. *)
Definition wellFormed (p : PerlinNoise.Table) : Prop :=
  length p = 512%nat /\ Forall (fun v => (0 <= v <= 255)%Z) p.

(** The value fits the control: a number within [[min, max]], or one of
    the options. *)
Definition fits (control : Schema.Control) (v : Keys.Value) : bool :=
  match control, v with
  | Schema.Range min max _ _, Keys.Num q => JS.leb min q && JS.leb q max
  | Schema.Range min max _ _, Keys.Count n =>
      JS.leb min (inject_Z (Z.of_nat n)) && JS.leb (inject_Z (Z.of_nat n)) max
  | Schema.Select options _, Keys.Text s => existsb (String.eqb s) options
  | _, _ => false
  end.

(** The sum of the time steps of a run of frames. *)
Definition total (deltas : list Q) : Q := fold_right Qplus 0%Q deltas.

(** The value that [noise] returns inside one cell, from the hashes of
    the eight corners and the position in the cell. *)
Definition blend (hAA hBA hAB hBB hAA1 hBA1 hAB1 hBB1 : Z) (x y z : Q) : Q :=
  PerlinNoise.lerp
    (PerlinNoise.lerp
       (PerlinNoise.lerp (PerlinNoise.grad hAA x y z)
                         (PerlinNoise.grad hBA (x - 1) y z) (PerlinNoise.fade x))
       (PerlinNoise.lerp (PerlinNoise.grad hAB x (y - 1) z)
                         (PerlinNoise.grad hBB (x - 1) (y - 1) z) (PerlinNoise.fade x))
       (PerlinNoise.fade y))
    (PerlinNoise.lerp
       (PerlinNoise.lerp (PerlinNoise.grad hAA1 x y (z - 1))
                         (PerlinNoise.grad hBA1 (x - 1) y (z - 1)) (PerlinNoise.fade x))
       (PerlinNoise.lerp (PerlinNoise.grad hAB1 x (y - 1) (z - 1))
                         (PerlinNoise.grad hBB1 (x - 1) (y - 1) (z - 1)) (PerlinNoise.fade x))
       (PerlinNoise.fade y))
    (PerlinNoise.fade z).

(** The position of [x] in its cell: [x - Math.floor(x)]. *)
Definition frac (x : Q) : Q := (x - inject_Z (JS.Math_floor x))%Q.

(* ===================================================================== *)
(** * Theorems *)
(* ===================================================================== *)

(** ** Arithmetic *)

Section Arithmetic.

Local Open Scope Q_scope.

Lemma ltb_lt (a b : Q) : JS.ltb a b = true <-> a < b.
Proof.
  unfold JS.ltb. rewrite negb_true_iff.
  split.
  - intros H. apply Qnot_le_lt. intros Hle.
    apply Qle_bool_iff in Hle. congruence.
  - intros H. destruct (Qle_bool b a) eqn:E; [|reflexivity].
    apply Qle_bool_iff in E. exfalso. apply (Qlt_not_le _ _ H E).
Qed.

Lemma ltb_ge (a b : Q) : JS.ltb a b = false <-> b <= a.
Proof.
  unfold JS.ltb. rewrite negb_false_iff. apply Qle_bool_iff.
Qed.

Lemma leb_le (a b : Q) : JS.leb a b = true <-> a <= b.
Proof. apply Qle_bool_iff. Qed.

Lemma leb_gt (a b : Q) : JS.leb a b = false <-> b < a.
Proof.
  unfold JS.leb. split.
  - intros H. apply Qnot_le_lt. intros Hle.
    apply Qle_bool_iff in Hle. congruence.
  - intros H. destruct (Qle_bool a b) eqn:E; [|reflexivity].
    apply Qle_bool_iff in E. exfalso. apply (Qlt_not_le _ _ H E).
Qed.

(** [Math.max(0, Math.min(w, x))] lands in [[0, w]] when [0 <= w]. *)
Lemma clamp_bounds (w x : Q) :
  0 <= w ->
  0 <= JS.Math_max 0 (JS.Math_min w x) /\ JS.Math_max 0 (JS.Math_min w x) <= w.
Proof.
  intros Hw. unfold JS.Math_max, JS.Math_min.
  destruct (JS.leb w x) eqn:E1.
  - destruct (JS.leb 0 w) eqn:E2.
    + split; [exact Hw | apply Qle_refl].
    + apply leb_gt in E2. exfalso. apply (Qlt_not_le _ _ E2 Hw).
  - apply leb_gt in E1.
    destruct (JS.leb 0 x) eqn:E2.
    + apply leb_le in E2. split; [exact E2 | apply Qlt_le_weak; exact E1].
    + split; [apply Qle_refl | exact Hw].
Qed.

End Arithmetic.

(** ** The frame contract of [update] *)

(** C1. For each of the six variants, [update(deltaTime)] leaves the whole
    instance as it is while the instance is paused; while it is playing,
    [time] grows by [deltaTime * params.speed] and [frame] by one. *)
Theorem update_only_while_playing (a : Instance.t) (deltaTime : Q) :
  (Instance.isPlaying a = false -> Instance.update a deltaTime = a) /\
  (Instance.isPlaying a = true ->
   Instance.time (Instance.update a deltaTime)
     = (Instance.time a + deltaTime * Instance.speed a)%Q /\
   Instance.frame (Instance.update a deltaTime) = (Instance.frame a + 1)%Z).
Proof.
  destruct a as [[b ? ? ?]|[b]|[b ?]|[b ? ?]|[b ? ?]|[b ?]];
    destruct b as [? ? ? ? ? ? ? ? playing];
    destruct playing; cbn; split; intros E;
    first [discriminate E | reflexivity | (split; reflexivity)].
Qed.

Lemma update_only_while_playing_witness :
  Instance.update (Instance.OfParticleSystem Sample.oneParticle) 16
    = Instance.OfParticleSystem Sample.oneParticle /\
  Instance.frame
    (Instance.update
       (Instance.OfParticleSystem (ParticleSystem.play Sample.oneParticle)) 16)
    = 1%Z.
Proof.
  split.
  - apply (update_only_while_playing
             (Instance.OfParticleSystem Sample.oneParticle) 16).
    reflexivity.
  - apply (update_only_while_playing
             (Instance.OfParticleSystem (ParticleSystem.play Sample.oneParticle)) 16).
    reflexivity.
Defined.

(** ** [reset] *)

(** C2, as stated, fails: [reset] on a particle system whose particle has
    moved once sets [frame] and [time] to zero and leaves the trail of
    the particle with its one entry. *)
Lemma reset_keeps_particle_trails :
  Instance.frame (Instance.reset (Instance.OfParticleSystem Sample.oneParticleMoved)) = 0%Z
  /\ map (fun p => length (ParticleSystem.trail p))
       (ParticleSystem.particles (ParticleSystem.reset Sample.oneParticleMoved))
     = [1%nat]
  /\ trailsEmpty (Instance.reset (Instance.OfParticleSystem Sample.oneParticleMoved))
     = false.
Proof. vm_compute. repeat split. Qed.

(** C2, amended. For each variant [reset()] sets [frame] and [time] to
    zero; it also zeroes the rotation phase and the last sampled time of
    RotatingPolygons and sets the zoom of Fractal to 1 and its colour
    offset to 0; it leaves the particles of a ParticleSystem (their trails
    included) and the trail of a Spirograph as they are.  Those trail
    buffers are emptied by the driver's reset, which calls [reset()], then
    [initializeParticles()], then assigns [trailPoints = []]. *)
Theorem reset_state (random : Random) (a : Instance.t) :
  Instance.frame (Instance.reset a) = 0%Z
  /\ Instance.time (Instance.reset a) = 0%Q
  /\ resetOwnState a (Instance.reset a)
  /\ Instance.frame (PsychedelicApp.reset random a) = 0%Z
  /\ Instance.time (PsychedelicApp.reset random a) = 0%Q
  /\ trailsEmpty (PsychedelicApp.reset random a) = true.
Proof.
  destruct a as [[b ? ? ?]|[b]|[b ?]|[b ? ?]|[b ? ?]|[b ps]]; cbn;
    repeat split; try reflexivity.
  (* the fresh particles of the driver's reset have empty trails *)
  apply forallb_forall. intros p Hp.
  apply in_map_iff in Hp. destruct Hp as [i [<- _]]. reflexivity.
Qed.

(** ** The registry *)

(** The keys of the registry are the six of [Registry.keys]. *)
Lemma registry_keys (type : string) :
  In type Registry.keys <-> is_Some (Registry.ANIMATIONS !! type).
Proof.
  split.
  - intros H. cbn in H.
    repeat (destruct H as [<- | H]; [eexists; reflexivity |]).
    destruct H.
  - intros [c Hc]. unfold Registry.ANIMATIONS in Hc.
    apply elem_of_list_to_map_2 in Hc.
    apply list_elem_of_In in Hc. cbn in Hc.
    repeat (destruct Hc as [Hc | Hc];
            [inversion Hc; cbn; intuition congruence |]).
    destruct Hc.
Qed.

(** A key of the registry creates an instance of its class. *)
Lemma createAnimation_registered (random : Random) (canvas : Canvas.t)
    (params : Param.Object) (type : string) (c : Registry.Class) :
  Registry.ANIMATIONS !! type = Some c ->
  Registry.createAnimation random type canvas params
    = Registry.Returned (Registry.construct c random canvas params)
  /\ Registry.classOf (Registry.construct c random canvas params) = c.
Proof.
  intros H. unfold Registry.createAnimation, Registry.get. rewrite H.
  split; [reflexivity | destruct c; reflexivity].
Qed.

(** A key that is neither in the registry nor on [Object.prototype] is
    rejected with the error of [createAnimation]. *)
Lemma createAnimation_unknown (random : Random) (canvas : Canvas.t)
    (params : Param.Object) (type : string) :
  Registry.ANIMATIONS !! type = None ->
  Registry.Object_prototype !! type = None ->
  Registry.createAnimation random type canvas params
    = Registry.ThrownError ("Unknown animation type: " ++ type).
Proof.
  intros H1 H2. unfold Registry.createAnimation, Registry.get.
  rewrite H1, H2. reflexivity.
Qed.

(** C3, at the key "constructor", which is not one of the six: the lookup
    [ANIMATIONS[type]] finds [Object] on the prototype, the guard does not
    throw, and [new Object(canvas, params)] hands the canvas back.  At
    "toString" the guard does not throw either and [new] fails with a
    [TypeError]. *)
Theorem createAnimation_inherited_key (random : Random) (canvas : Canvas.t)
    (params : Param.Object) :
  Registry.createAnimation random "constructor" canvas params
    = Registry.ReturnedObject canvas
  /\ Registry.createAnimation random "toString" canvas params
    = Registry.ThrownTypeError
  /\ existsb (String.eqb "constructor") Registry.keys = false.
Proof. repeat split. Qed.

(** ** The colour model *)

(** C9. At full saturation and value the six sector boundaries map to
    red, yellow, green, cyan, blue and magenta: on exact rationals, and
    on doubles, where [1/6], [2/6], ... are the rounded quotients that
    the source compares [h] with. *)
Theorem hsvToRgb_primaries :
  (Animation.hsvToRgb 0 1 1 = (255, 0, 0)%Z
   /\ Animation.hsvToRgb (1 / 6) 1 1 = (255, 255, 0)%Z
   /\ Animation.hsvToRgb (2 / 6) 1 1 = (0, 255, 0)%Z
   /\ Animation.hsvToRgb (3 / 6) 1 1 = (0, 255, 255)%Z
   /\ Animation.hsvToRgb (4 / 6) 1 1 = (0, 0, 255)%Z
   /\ Animation.hsvToRgb (5 / 6) 1 1 = (255, 0, 255)%Z)
  /\ (Double.hsvToRgb 0 1 1 = (Some 255, Some 0, Some 0)%Z
      /\ Double.hsvToRgb (1 / 6) 1 1 = (Some 255, Some 255, Some 0)%Z
      /\ Double.hsvToRgb (2 / 6) 1 1 = (Some 0, Some 255, Some 0)%Z
      /\ Double.hsvToRgb (3 / 6) 1 1 = (Some 0, Some 255, Some 255)%Z
      /\ Double.hsvToRgb (4 / 6) 1 1 = (Some 0, Some 0, Some 255)%Z
      /\ Double.hsvToRgb (5 / 6) 1 1 = (Some 255, Some 0, Some 255)%Z)%float.
Proof. vm_compute. repeat split. Qed.

(** ** The fractal evaluator *)

Section EscapeLoop.

Import Fractal.

(** A loop body that counts its iterations. *)
Variable body : Orbit -> Orbit.
Hypothesis body_counts : forall o, iter (body o) = S (iter o).

(** The loop run with exactly the iterations that [maxIter] leaves: it
    either uses them all, or stops early on an orbit that has escaped,
    and then every larger bound stops on the same orbit. *)
Lemma while_inside (fuel maxIter : nat) (s : Orbit) :
  (iter s + fuel = maxIter)%nat ->
  let o := while fuel (inside maxIter) body s in
  iter o = maxIter
  \/ ((iter o < maxIter)%nat
      /\ JS.leb (x2 o + y2 o) 4 = false
      /\ forall fuel' maxIter',
          (maxIter <= maxIter')%nat ->
          (iter s + fuel' = maxIter')%nat ->
          while fuel' (inside maxIter') body s = o).
Proof.
  revert s. induction fuel as [|fuel IH]; intros s Hs; cbn [while].
  - left. lia.
  - destruct (inside maxIter s) eqn:Hin.
    + apply andb_true_iff in Hin. destruct Hin as [Hin _].
      destruct (IH (body s)) as [Hall | (Hlt' & Hout & Hsame)].
      { rewrite body_counts. lia. }
      * left. exact Hall.
      * right. repeat split; [exact Hlt' | exact Hout |].
        intros fuel' maxIter' Hle Hs'.
        destruct fuel' as [|fuel']; [lia|]. cbn [while].
        assert (Hin' : inside maxIter' s = true).
        { unfold inside. rewrite Hin. apply Nat.ltb_lt. lia. }
        rewrite Hin'. apply Hsame; [exact Hle | rewrite body_counts; lia].
    + assert (Hout : JS.leb (x2 s + y2 s) 4 = false).
      { apply andb_false_iff in Hin. destruct Hin as [Hin | Hin]; [exact Hin|].
        apply Nat.ltb_ge in Hin. lia. }
      right. repeat split; [lia | exact Hout |].
      intros fuel' maxIter' Hle Hs'.
      destruct fuel' as [|fuel']; [reflexivity|]. cbn [while].
      unfold inside. rewrite Hout. reflexivity.
Qed.

(** The loop leaves with its condition false: [maxIter] unrollings are
    enough. *)
Lemma while_inside_exit (maxIter : nat) (s : Orbit) :
  iter s = 0%nat ->
  inside maxIter (while maxIter (inside maxIter) body s) = false.
Proof.
  intros Hs.
  assert (H : (iter s + maxIter = maxIter)%nat) by lia.
  apply while_inside in H. cbv zeta in H.
  destruct H as [Hall | (_ & Hout & _)]; unfold inside at 1.
  - rewrite Hall, Nat.ltb_irrefl. apply andb_false_r.
  - rewrite Hout. reflexivity.
Qed.


End EscapeLoop.

(** The origin does not move under [z <- z^2 + 0]. *)
Lemma mandelbrot_origin_orbit (fuel maxIter i : nat) :
  (i + fuel = maxIter)%nat ->
  Fractal.iter
    (Fractal.while fuel (Fractal.inside maxIter) (Fractal.mandelbrotStep 0 0)
       {| Fractal.x := 0; Fractal.y := 0; Fractal.x2 := 0; Fractal.y2 := 0;
          Fractal.iter := i |})
  = maxIter.
Proof.
  revert i. induction fuel as [|fuel IH]; intros i Hi; cbn [Fractal.while].
  - cbn. lia.
  - set (o := {| Fractal.x := 0; Fractal.y := 0; Fractal.x2 := 0;
                 Fractal.y2 := 0; Fractal.iter := i |}).
    assert (Hin : Fractal.inside maxIter o = true).
    { unfold Fractal.inside, o. cbn [Fractal.x2 Fractal.y2 Fractal.iter].
      apply andb_true_iff. split; [reflexivity | apply Nat.ltb_lt; lia]. }
    rewrite Hin.
    change (Fractal.mandelbrotStep 0 0 o)
      with {| Fractal.x := 0; Fractal.y := 0; Fractal.x2 := 0;
              Fractal.y2 := 0; Fractal.iter := S i |}.
    apply IH. lia.
Qed.

(** C7. [mandelbrot(0, 0, maxIter)] returns 0 whatever the bound: the
    orbit of the origin stays at the origin, so the loop ends on
    [iter === maxIter]. *)
Theorem mandelbrot_origin (maxIter : nat) :
  Fractal.mandelbrot 0 0 maxIter = 0%R.
Proof.
  unfold Fractal.mandelbrot, Fractal.escapeCount, Fractal.mandelbrotOrbit.
  rewrite (mandelbrot_origin_orbit maxIter maxIter 0) by lia.
  rewrite Nat.eqb_refl. reflexivity.
Qed.







(** ** The particle system *)

Section Surface.

Import ParticleSystem.
Local Open Scope Q_scope.

Lemma inject_Z_pos (z : Z) : (0 < z)%Z -> 0 < inject_Z z.
Proof. intros H. unfold Qlt. cbn. lia. Qed.

Lemma insideSurface_onSurface (width height : Z) (p : Particle) :
  insideSurface width height p -> onSurface width height p.
Proof.
  intros [[? ?] [? ?]]. repeat split; auto using Qlt_le_weak.
Qed.

(** A draw in [[0, 1)] scaled by a positive size lands in [[0, size)]. *)
Lemma scaled_draw (r : Q) (size : Z) :
  0 <= r /\ r < 1 -> (0 < size)%Z ->
  0 <= r * inject_Z size /\ r * inject_Z size < inject_Z size.
Proof.
  intros [H0 H1] Hs. apply inject_Z_pos in Hs.
  split.
  - apply Qmult_le_0_compat; [exact H0 | apply Qlt_le_weak; exact Hs].
  - pose proof (Qmult_lt_compat_r r 1 (inject_Z size) Hs H1) as H.
    rewrite Qmult_1_l in H. exact H.
Qed.

Lemma spawn_inside (random : Random) (width height : Z) (i : nat) :
  (forall n, 0 <= random n /\ random n < 1) ->
  (0 < width)%Z -> (0 < height)%Z ->
  insideSurface width height (spawn random width height i).
Proof.
  intros Hr Hw Hh. split; cbn [x y spawn]; apply scaled_draw; auto.
Qed.

(** One coordinate after the bounce: clamped when it reached an edge,
    strictly between the edges otherwise. *)
Lemma bounce_bounds (size c : Q) :
  0 <= size ->
  let hit := JS.leb c 0 || JS.leb size c in
  let c' := if hit then JS.Math_max 0 (JS.Math_min size c) else c in
  0 <= c' /\ c' <= size.
Proof.
  intros Hs. cbv zeta.
  destruct (JS.leb c 0 || JS.leb size c) eqn:E.
  - apply clamp_bounds. exact Hs.
  - apply orb_false_elim in E. destruct E as [E1 E2].
    apply leb_gt in E1. apply leb_gt in E2.
    split; apply Qlt_le_weak; assumption.
Qed.

(** Whatever the parameters, the time step and the particle, [step]
    leaves the particle on the surface. *)
Lemma step_onSurface (width height : Z) (o : Own) (dt : Q) (p : Particle) :
  (0 <= width)%Z -> (0 <= height)%Z ->
  onSurface width height (step width height o dt p).
Proof.
  intros Hw Hh.
  assert (Hw' : 0 <= inject_Z width) by (unfold Qle; cbn; lia).
  assert (Hh' : 0 <= inject_Z height) by (unfold Qle; cbn; lia).
  split; cbn [x y step]; apply bounce_bounds; assumption.
Qed.

(** No call changes the size of the surface. *)
Lemma call_size (a : t) (c : Calls.Call) :
  Animation.width (base (Calls.call a c)) = Animation.width (base a)
  /\ Animation.height (base (Calls.call a c)) = Animation.height (base a).
Proof.
  destruct a as [b ps]; destruct b as [? ? ? ? ? ? ? ? playing];
    destruct c; cbn; try (split; reflexivity).
  destruct playing; cbn; split; reflexivity.
Qed.

Lemma call_onSurface (a : t) (c : Calls.Call) :
  (0 <= Animation.width (base a))%Z -> (0 <= Animation.height (base a))%Z ->
  Forall (onSurface (Animation.width (base a)) (Animation.height (base a)))
         (particles a) ->
  Forall (onSurface (Animation.width (base a)) (Animation.height (base a)))
         (particles (Calls.call a c)).
Proof.
  intros Hw Hh Hps.
  destruct a as [b ps]; destruct b as [? w h ? ? ? ? ? playing];
    destruct c; cbn in *; try exact Hps.
  destruct playing; cbn; [|exact Hps].
  apply List.Forall_forall. intros p Hp.
  apply in_map_iff in Hp. destruct Hp as [q [<- _]].
  apply step_onSurface; assumption.
Qed.

Lemma run_onSurface (cs : list Calls.Call) (a : t) :
  (0 <= Animation.width (base a))%Z -> (0 <= Animation.height (base a))%Z ->
  Forall (onSurface (Animation.width (base a)) (Animation.height (base a)))
         (particles a) ->
  Forall (onSurface (Animation.width (base a)) (Animation.height (base a)))
         (particles (Calls.run cs a)).
Proof.
  revert a. induction cs as [|c cs IH]; intros a Hw Hh Hps; cbn.
  - exact Hps.
  - destruct (call_size a c) as [Ew Eh].
    rewrite <- Ew, <- Eh. apply IH; rewrite ?Ew, ?Eh; try assumption.
    apply call_onSurface; assumption.
Qed.

End Surface.

(** C4. On a surface of positive size, with draws in [[0, 1)], every
    particle lies in [[0, width) x [0, height)] right after
    [initializeParticles], and in [[0, width] x [0, height]] after any
    further sequence of [update], [updateParams], [play], [pause] and
    [reset] calls, whatever their arguments. *)
Theorem particles_stay_on_surface (random : Random) (a : ParticleSystem.t)
    (cs : list Calls.Call) :
  (forall n, (0 <= random n /\ random n < 1)%Q) ->
  (0 < Animation.width (ParticleSystem.base a))%Z ->
  (0 < Animation.height (ParticleSystem.base a))%Z ->
  Forall (insideSurface (Animation.width (ParticleSystem.base a))
                        (Animation.height (ParticleSystem.base a)))
         (ParticleSystem.particles (ParticleSystem.initializeParticles random a))
  /\ Forall (onSurface (Animation.width (ParticleSystem.base a))
                       (Animation.height (ParticleSystem.base a)))
            (ParticleSystem.particles
               (Calls.run cs (ParticleSystem.initializeParticles random a))).
Proof.
  intros Hr Hw Hh.
  assert (Hinit :
    Forall (insideSurface (Animation.width (ParticleSystem.base a))
                          (Animation.height (ParticleSystem.base a)))
           (ParticleSystem.particles (ParticleSystem.initializeParticles random a))).
  { apply List.Forall_forall. intros p Hp. cbn in Hp.
    apply in_map_iff in Hp. destruct Hp as [i [<- _]].
    apply spawn_inside; assumption. }
  split; [exact Hinit|].
  apply (run_onSurface cs (ParticleSystem.initializeParticles random a));
    cbn [ParticleSystem.base ParticleSystem.initializeParticles]; try lia.
  eapply Forall_impl; [exact Hinit|].
  intros p. apply insideSurface_onSurface.
Qed.

Lemma particles_stay_on_surface_witness :
  Forall (insideSurface 100 100)
         (ParticleSystem.particles
            (ParticleSystem.initializeParticles Sample.half Sample.oneParticle))
  /\ Forall (onSurface 100 100)
            (ParticleSystem.particles
               (Calls.run
                  [Calls.Play; Calls.Update 16;
                   Calls.UpdateParams [Param.gravity 1000]; Calls.Update 16]
                  (ParticleSystem.initializeParticles Sample.half Sample.oneParticle))).
Proof.
  apply (particles_stay_on_surface Sample.half Sample.oneParticle).
  - intros n. unfold Sample.half. split; [discriminate | reflexivity].
  - reflexivity.
  - reflexivity.
Defined.

(** ** Particle trails *)

Section Trails.

Import ParticleSystem.

(** A push past the cap evicts the oldest entry, and only that one. *)
Lemma pushTrail_fifo (trailLength : nat) (tr : list Point) (p : Point) :
  (trailLength < length tr + 1)%nat ->
  pushTrail trailLength tr p = tl (tr ++ [p]).
Proof.
  intros H. unfold pushTrail.
  replace (trailLength <? length (tr ++ [p]))%nat with true; [reflexivity|].
  symmetry. apply Nat.ltb_lt. rewrite length_app. cbn. lia.
Qed.

Lemma pushTrail_length (trailLength : nat) (tr : list Point) (p : Point) :
  length (pushTrail trailLength tr p)
  = if (trailLength <? length tr + 1)%nat then length tr else S (length tr).
Proof.
  unfold pushTrail. rewrite length_app. cbn [length].
  destruct (trailLength <? length tr + 1)%nat.
  - destruct tr; cbn; [reflexivity|]. rewrite length_app. cbn. lia.
  - rewrite length_app. cbn. lia.
Qed.

(** A push keeps the trail within any bound that holds for the old
    trail and for the cap. *)
Lemma pushTrail_bound (bound trailLength : nat) (tr : list Point) (p : Point) :
  (length tr <= bound)%nat -> (trailLength <= bound)%nat ->
  (length (pushTrail trailLength tr p) <= bound)%nat.
Proof.
  intros Htr Hcap. rewrite pushTrail_length.
  destruct (trailLength <? length tr + 1)%nat eqn:E; [exact Htr|].
  apply Nat.ltb_ge in E. lia.
Qed.

(** X11. The trails never outgrow the largest [trailLength] that an
    [update] has seen: in particular they stay within [trailLength] as
    long as it is not lowered. *)
Lemma trails_within_largest_cap (bound : nat) (cs : list Calls.Call) (a : t) :
  trailsWithin bound a ->
  Forall (fun cap => (cap <= bound)%nat) (caps cs a) ->
  trailsWithin bound (Calls.run cs a).
Proof.
  revert a. induction cs as [|c cs IH]; intros a Ha Hcaps; cbn.
  - exact Ha.
  - cbn [caps] in Hcaps. apply Forall_app in Hcaps. destruct Hcaps as [Hc Hcs].
    apply IH; [|exact Hcs].
    destruct a as [b ps]; destruct b as [? ? ? ? ? ? ? ? playing];
      destruct c; cbn in *; try exact Ha.
    destruct playing; cbn; [|exact Ha].
    apply Forall_cons_1 in Hc. destruct Hc as [Hc _].
    unfold trailsWithin in *. cbn in *.
    apply List.Forall_forall. intros p Hp.
    apply in_map_iff in Hp. destruct Hp as [q [<- Hq]].
    cbn [trail step]. apply pushTrail_bound; [|exact Hc].
    rewrite List.Forall_forall in Ha. apply Ha. exact Hq.
Qed.

End Trails.

(** C5, at a run that lowers [trailLength]: a particle system played for
    twenty frames holds a trail of 20 points; after
    [updateParams({trailLength: 5})] and one more [update] the instance is
    playing, [trailLength] is 5, and the trail still holds 20 points: the
    new position was pushed and one entry, the oldest, was evicted. *)
Theorem trail_outgrows_lowered_cap :
  Animation.isPlaying (ParticleSystem.base Sample.trailLowered) = true
  /\ ParticleSystem.trailLength
       (Animation.own (Animation.params (ParticleSystem.base Sample.trailLowered)))
     = 5%nat
  /\ map (fun p => length (ParticleSystem.trail p))
       (ParticleSystem.particles Sample.trailLowered)
     = [20%nat]
  /\ map ParticleSystem.trail (ParticleSystem.particles Sample.trailLowered)
     = zip_with
         (fun before after =>
            tl (ParticleSystem.trail before)
            ++ [{| ParticleSystem.px := ParticleSystem.x after;
                   ParticleSystem.py := ParticleSystem.y after |}])
         (ParticleSystem.particles Sample.trailFull)
         (ParticleSystem.particles Sample.trailLowered).
Proof. vm_compute. repeat split. Qed.

(** ** The noise field *)

Section Tables.

Import PerlinNoise.

Lemma swap_entries (P : Z -> Prop) (p : Table) (i j : nat) :
  Forall P p -> Forall P (swap p i j).
Proof.
  intros Hp. unfold swap.
  destruct (p !! i) as [a|] eqn:Ea; [|exact Hp].
  destruct (p !! j) as [b|] eqn:Eb; [|exact Hp].
  apply Forall_insert; [apply Forall_insert|].
  - exact Hp.
  - exact (Forall_lookup_1 _ _ _ _ Hp Eb).
  - exact (Forall_lookup_1 _ _ _ _ Hp Ea).
Qed.

Lemma swap_length (p : Table) (i j : nat) : length (swap p i j) = length p.
Proof.
  unfold swap. destruct (p !! i); [|reflexivity].
  destruct (p !! j); [|reflexivity].
  rewrite !length_insert. reflexivity.
Qed.

Lemma shuffle_entries (P : Z -> Prop) (random : Random) (i k : nat) (p : Table) :
  Forall P p -> Forall P (shuffle random k i p).
Proof.
  revert k p. induction i as [|i IH]; intros k p Hp; cbn [shuffle].
  - exact Hp.
  - apply IH. apply swap_entries. exact Hp.
Qed.

Lemma shuffle_length (random : Random) (i k : nat) (p : Table) :
  length (shuffle random k i p) = length p.
Proof.
  revert k p. induction i as [|i IH]; intros k p; cbn [shuffle].
  - reflexivity.
  - rewrite IH. apply swap_length.
Qed.

(** Whatever [Math.random] returns, [generatePermutation] builds a table
    of 512 entries in [0 .. 255]. *)
Lemma generatePermutation_wellFormed (random : Random) :
  wellFormed (generatePermutation random).
Proof.
  unfold generatePermutation, wellFormed.
  set (p0 := map Z.of_nat (seq 0 256)).
  assert (H0 : Forall (fun v => (0 <= v <= 255)%Z) p0).
  { apply List.Forall_forall. intros v Hv.
    apply in_map_iff in Hv. destruct Hv as [n [<- Hn]].
    apply in_seq in Hn. lia. }
  split.
  - rewrite length_app, shuffle_length. reflexivity.
  - apply Forall_app. split; apply shuffle_entries; exact H0.
Qed.

Lemma at_wellFormed (p : Table) (i : Z) :
  wellFormed p -> (0 <= i <= 511)%Z ->
  exists v, at_ p i = Some v /\ (0 <= v <= 255)%Z.
Proof.
  intros [Hlen Hall] Hi. unfold at_.
  replace (i <? 0)%Z with false by (symmetry; apply Z.ltb_ge; lia).
  destruct (lookup_lt_is_Some_2 p (Z.to_nat i)) as [v Hv]; [lia|].
  exists v. split; [exact Hv|].
  exact (Forall_lookup_1 _ _ _ _ Hall Hv).
Qed.

Lemma land_255 (a : Z) : (0 <= Z.land a 255 <= 255)%Z.
Proof.
  change 255%Z with (Z.ones 8). rewrite Z.land_ones by lia.
  pose proof (Z.mod_pos_bound a (2 ^ 8)) as H. change (Z.ones 8) with 255%Z. lia.
Qed.

(** On such a table every array read of [noise] is inside the array:
    [noise] returns a number at every point. *)
Lemma noise_defined (p : Table) (x y z : Q) :
  wellFormed p -> is_Some (noise p x y z).
Proof.
  intros Hp. unfold noise.
  pose proof (land_255 (JS.Math_floor x)) as HX.
  pose proof (land_255 (JS.Math_floor y)) as HY.
  pose proof (land_255 (JS.Math_floor z)) as HZ.
  set (X := Z.land (JS.Math_floor x) 255) in *.
  set (Y := Z.land (JS.Math_floor y) 255) in *.
  set (Z_ := Z.land (JS.Math_floor z) 255) in *.
  cbv zeta.
  destruct (at_wellFormed p X Hp) as [pX [-> HpX]]; [lia|]. cbn [mbind option_bind].
  destruct (at_wellFormed p (pX + Y) Hp) as [pA [-> HpA]]; [lia|]. cbn [mbind option_bind].
  destruct (at_wellFormed p (pX + Y + 1) Hp) as [pA1 [-> HpA1]]; [lia|]. cbn [mbind option_bind].
  destruct (at_wellFormed p (X + 1) Hp) as [pX1 [-> HpX1]]; [lia|]. cbn [mbind option_bind].
  destruct (at_wellFormed p (pX1 + Y) Hp) as [pB [-> HpB]]; [lia|]. cbn [mbind option_bind].
  destruct (at_wellFormed p (pX1 + Y + 1) Hp) as [pB1 [-> HpB1]]; [lia|]. cbn [mbind option_bind].
  destruct (at_wellFormed p (pA + Z_) Hp) as [? [-> _]]; [lia|]. cbn [mbind option_bind].
  destruct (at_wellFormed p (pB + Z_) Hp) as [? [-> _]]; [lia|]. cbn [mbind option_bind].
  destruct (at_wellFormed p (pA1 + Z_) Hp) as [? [-> _]]; [lia|]. cbn [mbind option_bind].
  destruct (at_wellFormed p (pB1 + Z_) Hp) as [? [-> _]]; [lia|]. cbn [mbind option_bind].
  destruct (at_wellFormed p (pA + Z_ + 1) Hp) as [? [-> _]]; [lia|]. cbn [mbind option_bind].
  destruct (at_wellFormed p (pB + Z_ + 1) Hp) as [? [-> _]]; [lia|]. cbn [mbind option_bind].
  destruct (at_wellFormed p (pA1 + Z_ + 1) Hp) as [? [-> _]]; [lia|]. cbn [mbind option_bind].
  destruct (at_wellFormed p (pB1 + Z_ + 1) Hp) as [? [-> _]]; [lia|]. cbn [mbind option_bind].
  eexists. reflexivity.
Qed.

End Tables.

(** The shuffle draws of the sample lie in [[0, 1)], and the table they
    produce is a permutation of [0 .. 255] laid out twice. *)
Lemma sample_table_well_formed :
  forallb (fun k => JS.leb 0 (Sample.shuffleDraws k)
                    && JS.ltb (Sample.shuffleDraws k) 1) (seq 0 255) = true
  /\ length Sample.table = 512%nat
  /\ forallb (fun v => existsb (Z.eqb (Z.of_nat v)) (take 256 Sample.table))
       (seq 0 256) = true
  /\ drop 256 Sample.table = take 256 Sample.table.
Proof. vm_compute. repeat split. Qed.

(** C6, at one octave, persistence 0.5, lacunarity 2, the point
    [(0.5, 0.5, 0.25)] and the table of the sample: [fractalNoise] returns
    [2101/2048], which is above 1. *)
Theorem fractalNoise_above_one :
  Qred <$> PerlinNoise.fractalNoise Sample.table 0.5 0.5 0.25 1 0.5 2.0
    = Some (2101 # 2048)%Q
  /\ (1 < 2101 # 2048)%Q.
Proof. vm_compute. split; reflexivity. Qed.

(** ** [PerlinNoise.render] *)

(** C10. [render()] adds [timeSpeed * 0.01] to [noiseOffset], playing or
    not, which changes the instance when [timeSpeed] is not 0.  After
    the draws of [super.render()] it records one [putImageData], whose
    writes are, for each pixel in loop order, the four writes of the
    pixel at the new offset: the colour of
    [fractalNoise(x * scale, y * scale, noiseOffset, ...)] with
    [noiseOffset] already advanced, then alpha 255.  The rest of the
    instance is left as it is.  A paused instance is left alone by
    [update], so the second of two [render] calls on it records the
    image of the same field at the offset of the first plus
    [timeSpeed * 0.01], which is another offset when [timeSpeed] is not
    0. *)
Theorem render_advances_noise_offset (a : PerlinNoise.t) (deltaTime : Q) :
  let b := PerlinNoise.base a in
  let o := Animation.own (Animation.params b) in
  let timeSpeed := PerlinNoise.timeSpeed o in
  let image (offset : Q) : list Canvas.Write :=
    '(x, y) ← PerlinNoise.pixels (Animation.width b) (Animation.height b);
    PerlinNoise.pixel a offset x y in
  let recorded (a' : PerlinNoise.t) :=
    Canvas.drawn (Animation.ctx (PerlinNoise.base a')) in
  let a1 := PerlinNoise.render a in
  let a2 := PerlinNoise.render (PerlinNoise.update a1 deltaTime) in
  PerlinNoise.noiseOffset a1 = (PerlinNoise.noiseOffset a + timeSpeed * 0.01)%Q
  /\ PerlinNoise.permutation a1 = PerlinNoise.permutation a
  /\ Animation.withCtx (PerlinNoise.base a1) (Animation.ctx b) = b
  /\ recorded a1
     = Canvas.drawn (Animation.ctx (Animation.render b))
       ++ [Canvas.PutImageData (image (PerlinNoise.noiseOffset a1))]
  /\ (forall (offset : Q) (x y : Z),
        let rgb :=
          PerlinNoise.colorize a
            <$> PerlinNoise.fractalNoise (PerlinNoise.permutation a)
                  (inject_Z x * PerlinNoise.scale o)%Q
                  (inject_Z y * PerlinNoise.scale o)%Q
                  offset
                  (PerlinNoise.octaves o) (PerlinNoise.persistence o)
                  (PerlinNoise.lacunarity o) in
        let index := ((y * Animation.width b + x) * 4)%Z in
        PerlinNoise.pixel a offset x y
        = [(index, (fun c => c.1.1) <$> rgb);
           ((index + 1)%Z, (fun c => c.1.2) <$> rgb);
           ((index + 2)%Z, (fun c => c.2) <$> rgb);
           ((index + 3)%Z, Some 255%Q)])
  /\ (~ (timeSpeed == 0)%Q ->
      ~ (PerlinNoise.noiseOffset a1 == PerlinNoise.noiseOffset a)%Q)
  /\ (Animation.isPlaying b = false ->
      PerlinNoise.update a1 deltaTime = a1
      /\ recorded a2
         = recorded a1 ++ [Canvas.FillRect (Animation.clearStyle b) 0 0
                             (inject_Z (Animation.width b))
                             (inject_Z (Animation.height b));
                           Canvas.PutImageData (image (PerlinNoise.noiseOffset a2))]
      /\ PerlinNoise.noiseOffset a2
         = (PerlinNoise.noiseOffset a1 + timeSpeed * 0.01)%Q
      /\ (~ (timeSpeed == 0)%Q ->
          ~ (PerlinNoise.noiseOffset a2 == PerlinNoise.noiseOffset a1)%Q)).
Proof.
  cbv zeta.
  split; [reflexivity|]. split; [reflexivity|].
  split; [destruct a as [[] ? ?]; reflexivity|].
  split; [reflexivity|].
  split; [intros offset x y; reflexivity|].
  split.
  { intros Hts Heq. apply Hts.
    change (PerlinNoise.noiseOffset (PerlinNoise.render a))
      with (PerlinNoise.noiseOffset a
            + PerlinNoise.timeSpeed
                (Animation.own (Animation.params (PerlinNoise.base a))) * 0.01)%Q
      in Heq.
    set (ts := PerlinNoise.timeSpeed _) in *.
    set (off := PerlinNoise.noiseOffset _) in *.
    clearbody ts off. Lqa.lra. }
  intros Hpaused.
  assert (Hup : PerlinNoise.update (PerlinNoise.render a) deltaTime
                = PerlinNoise.render a).
  { destruct a as [[? ? ? ? ? ? ? ? playing] ? ?]. cbn in Hpaused. subst playing.
    reflexivity. }
  rewrite Hup.
  split; [reflexivity|].
  split.
  { destruct a as [[c ? ? ? ? ? ? ? ?] ? ?]. destruct c as [? ds].
    unfold PerlinNoise.render, Animation.render, Canvas.putImageData,
      Canvas.fillRect, Canvas.setFillStyle, Animation.withCtx.
    cbn [PerlinNoise.base Animation.ctx Canvas.drawn Canvas.fillStyle
         Animation.width Animation.height].
    rewrite <- !app_assoc. reflexivity. }
  split; [reflexivity|].
  intros Hts Heq. apply Hts.
  change (PerlinNoise.noiseOffset (PerlinNoise.render (PerlinNoise.render a)))
    with (PerlinNoise.noiseOffset (PerlinNoise.render a)
          + PerlinNoise.timeSpeed
              (Animation.own (Animation.params (PerlinNoise.base a))) * 0.01)%Q
    in Heq.
  set (ts := PerlinNoise.timeSpeed _) in *.
  set (off := PerlinNoise.noiseOffset _) in *.
  clearbody ts off. Lqa.lra.
Qed.

(** A paused noise field of one octave in monochrome on the strip of
    two pixels: the values that two consecutive [render] calls assign,
    in lowest terms. *)
Lemma render_advances_noise_offset_witness :
  let a :=
    PerlinNoise.constructor Sample.shuffleDraws Sample.strip
      [Param.octaves 1; Param.colorMode "monochrome"] in
  let a1 := PerlinNoise.render a in
  let a2 := PerlinNoise.render (PerlinNoise.update a1 16) in
  let assigned (d : Canvas.Draw) : list (Z * option Q) :=
    match d with
    | Canvas.PutImageData writes => map (fun w => (w.1, Qred <$> w.2)) writes
    | Canvas.FillRect _ _ _ _ _ => []
    end in
  PerlinNoise.noiseOffset a1 = (0 + 1.0 * 0.01)%Q
  /\ map assigned (Canvas.drawn (Animation.ctx (PerlinNoise.base a1)))
     = [ [];
         [(0%Z, Some (25500248678397 # 200000000000));
          (1%Z, Some (25500248678397 # 200000000000));
          (2%Z, Some (25500248678397 # 200000000000));
          (3%Z, Some 255);
          (4%Z, Some (25755494844891 # 200000000000));
          (5%Z, Some (25755494844891 # 200000000000));
          (6%Z, Some (25755494844891 # 200000000000));
          (7%Z, Some 255)] ]%Q
  /\ PerlinNoise.noiseOffset a2 = (0 + 1.0 * 0.01 + 1.0 * 0.01)%Q
  /\ map assigned (Canvas.drawn (Animation.ctx (PerlinNoise.base a2)))
     = [ [];
         [(0%Z, Some (25500248678397 # 200000000000));
          (1%Z, Some (25500248678397 # 200000000000));
          (2%Z, Some (25500248678397 # 200000000000));
          (3%Z, Some 255);
          (4%Z, Some (25755494844891 # 200000000000));
          (5%Z, Some (25755494844891 # 200000000000));
          (6%Z, Some (25755494844891 # 200000000000));
          (7%Z, Some 255)];
         [];
         [(0%Z, Some (6226059498 # 48828125));
          (1%Z, Some (6226059498 # 48828125));
          (2%Z, Some (6226059498 # 48828125));
          (3%Z, Some 255);
          (4%Z, Some (12878592935151 # 100000000000));
          (5%Z, Some (12878592935151 # 100000000000));
          (6%Z, Some (12878592935151 # 100000000000));
          (7%Z, Some 255)] ]%Q
  /\ ~ (PerlinNoise.noiseOffset a2 == PerlinNoise.noiseOffset a1)%Q.
Proof.
  cbv zeta.
  pose proof (render_advances_noise_offset
                (PerlinNoise.constructor Sample.shuffleDraws Sample.strip
                   [Param.octaves 1; Param.colorMode "monochrome"]) 16)
    as H.
  cbv zeta in H.
  destruct H as (H1 & _ & _ & Himage1 & _ & _ & H2).
  destruct (H2 eq_refl) as (_ & Himage2 & Hoffset2 & Hne).
  split; [exact H1|].
  split; [rewrite Himage1; vm_compute; reflexivity|].
  split; [rewrite Hoffset2, H1; reflexivity|].
  split; [rewrite Himage2, Himage1; vm_compute; reflexivity|].
  apply Hne. discriminate.
Defined.

(* ===================================================================== *)
(** * Further properties of the code *)
(* ===================================================================== *)

(** ** The life cycle of an instance *)

(** One [update] of a playing instance. *)
Lemma update_playing (a : Instance.t) (deltaTime : Q) :
  Instance.isPlaying a = true ->
  Instance.isPlaying (Instance.update a deltaTime) = true
  /\ Instance.speed (Instance.update a deltaTime) = Instance.speed a
  /\ Instance.time (Instance.update a deltaTime)
     = (Instance.time a + deltaTime * Instance.speed a)%Q
  /\ Instance.frame (Instance.update a deltaTime) = (Instance.frame a + 1)%Z.
Proof.
  destruct a as [[b ? ? ?]|[b]|[b ?]|[b ? ?]|[b ? ?]|[b ?]];
    destruct b as [? ? ? ? ? ? ? ? playing];
    destruct playing; cbn; intros E; try discriminate E;
    repeat split; reflexivity.
Qed.

(** One [update] of a paused instance. *)
Lemma update_paused (a : Instance.t) (deltaTime : Q) :
  Instance.isPlaying a = false -> Instance.update a deltaTime = a.
Proof.
  destruct a as [[b ? ? ?]|[b]|[b ?]|[b ? ?]|[b ? ?]|[b ?]];
    destruct b as [? ? ? ? ? ? ? ? playing];
    destruct playing; cbn; intros E; try discriminate E; reflexivity.
Qed.

(** X1. Over a run of [update] calls on a playing instance, [frame]
    grows by the number of calls and [time] by [speed] times the sum of
    the time steps; with a speed and time steps that are not negative,
    [time] does not decrease. *)
Theorem elapsed_time_accumulates (a : Instance.t) (deltas : list Q) :
  Instance.isPlaying a = true ->
  let a' := Driver.run (map Driver.Update deltas) a in
  Instance.frame a' = (Instance.frame a + Z.of_nat (length deltas))%Z
  /\ (Instance.time a' == Instance.time a + Instance.speed a * total deltas)%Q
  /\ ((0 <= Instance.speed a)%Q -> Forall (fun d => (0 <= d)%Q) deltas ->
      (Instance.time a <= Instance.time a')%Q).
Proof.
  cbv zeta. revert a.
  induction deltas as [|d ds IH]; intros a Hplay.
  - cbn. split; [lia|]. split; [ring | intros _ _; apply Qle_refl].
  - destruct (update_playing a d Hplay) as (Hp & Hs & Ht & Hf).
    specialize (IH (Instance.update a d) Hp).
    destruct IH as (IHf & IHt & IHm).
    cbn [map Driver.run fold_left Driver.call] in *.
    unfold Driver.run in *.
    split; [|split].
    + rewrite IHf, Hf. cbn [length]. lia.
    + rewrite IHt, Ht, Hs. cbn [total fold_right].
      fold (total ds). ring.
    + intros Hspeed Hds. apply Forall_cons_1 in Hds. destruct Hds as [Hd Hds].
      apply Qle_trans with (Instance.time (Instance.update a d)).
      * rewrite Ht.
        assert (0 <= d * Instance.speed a)%Q
          by (apply Qmult_le_0_compat; assumption).
        Lqa.lra.
      * apply IHm; [rewrite Hs; exact Hspeed | exact Hds].
Qed.

Lemma elapsed_time_accumulates_witness :
  let a := Instance.OfParticleSystem (ParticleSystem.play Sample.oneParticle) in
  let a' := Driver.run (map Driver.Update [16; 17; 16]%Q) a in
  Instance.frame a' = 3%Z /\ (Instance.time a' == 49)%Q.
Proof.
  cbv zeta.
  destruct (elapsed_time_accumulates
              (Instance.OfParticleSystem (ParticleSystem.play Sample.oneParticle))
              [16; 17; 16]%Q eq_refl) as (Hf & Ht & _).
  split; [exact Hf | rewrite Ht; reflexivity].
Defined.

(** X2. [play] and [pause] only set [isPlaying]; each is idempotent, the
    last one wins, and the driver's [togglePlayPause] applied twice gives
    the instance back. *)
Theorem play_pause_toggle (a : Instance.t) :
  Instance.isPlaying (Instance.play a) = true
  /\ Instance.isPlaying (Instance.pause a) = false
  /\ Instance.play (Instance.play a) = Instance.play a
  /\ Instance.pause (Instance.pause a) = Instance.pause a
  /\ Instance.pause (Instance.play a) = Instance.pause a
  /\ Instance.play (Instance.pause a) = Instance.play a
  /\ Instance.frame (Instance.play a) = Instance.frame a
  /\ Instance.time (Instance.pause a) = Instance.time a
  /\ Instance.isPlaying (Driver.togglePlayPause a) = negb (Instance.isPlaying a)
  /\ Driver.togglePlayPause (Driver.togglePlayPause a) = a.
Proof.
  destruct a as [[b ? ? ?]|[b]|[b ?]|[b ? ?]|[b ? ?]|[b ?]];
    destruct b as [? ? ? ? ? ? ? ? playing];
    destruct playing; cbn; repeat split; reflexivity.
Qed.

(** ** The registry, continued *)

(** X3. For each of the six keys [createAnimation] returns an instance of
    the class registered under the key; the instance is paused at frame
    0 and time 0, so [update] leaves it alone until [play] is called. *)
Theorem createAnimation_starts_paused (random : Random) (canvas : Canvas.t)
    (params : Param.Object) (type : string) :
  In type Registry.keys ->
  exists a,
    Registry.createAnimation random type canvas params = Registry.Returned a
    /\ Registry.ANIMATIONS !! type = Some (Registry.classOf a)
    /\ Instance.isPlaying a = false
    /\ Instance.frame a = 0%Z
    /\ Instance.time a = 0%Q
    /\ forall deltaTime, Instance.update a deltaTime = a.
Proof.
  intros Hin. apply registry_keys in Hin. destruct Hin as [c Hc].
  destruct (createAnimation_registered random canvas params type c Hc)
    as [Hnew Hclass].
  exists (Registry.construct c random canvas params).
  assert (Hpaused :
    Instance.isPlaying (Registry.construct c random canvas params) = false)
    by (destruct c; reflexivity).
  split; [exact Hnew|]. split; [rewrite Hclass; exact Hc|].
  split; [exact Hpaused|].
  split; [destruct c; reflexivity|].
  split; [destruct c; reflexivity|].
  intros deltaTime. apply update_paused. exact Hpaused.
Qed.

Lemma createAnimation_starts_paused_witness :
  exists a,
    Registry.createAnimation Sample.half "fractal" Sample.canvas [] = Registry.Returned a
    /\ Registry.ANIMATIONS !! "fractal" = Some (Registry.classOf a)
    /\ Instance.isPlaying a = false
    /\ Instance.frame a = 0%Z
    /\ Instance.time a = 0%Q
    /\ forall deltaTime, Instance.update a deltaTime = a.
Proof.
  apply (createAnimation_starts_paused Sample.half Sample.canvas [] "fractal").
  cbn. auto 10.
Defined.

(** The key that the mixer mode of the driver passes is rejected. *)
Lemma createAnimation_unknown_witness :
  Registry.createAnimation Sample.half "combination" Sample.canvas []
  = Registry.ThrownError "Unknown animation type: combination".
Proof.
  apply (createAnimation_unknown Sample.half Sample.canvas [] "combination");
    reflexivity.
Defined.

(** ** Parameters *)

(** Two object literals that differ only under the key [changed] read
    the same under every other key. *)
Lemma lookup_elsewhere (changed k : string) (o1 o2 : Param.Object) :
  Forall2 (fun e1 e2 => Keys.key e1 = Keys.key e2
                        /\ (Keys.key e1 <> changed -> e1 = e2)) o1 o2 ->
  k <> changed -> Keys.lookup k o1 = Keys.lookup k o2.
Proof.
  intros Hall Hk. unfold Keys.lookup.
  induction Hall as [|e1 e2 o1 o2 [Hkey Hsame] _ IH]; [reflexivity|].
  cbn [find]. rewrite <- Hkey.
  destruct (String.eqb_spec (Keys.key e1) k) as [E | E].
  - rewrite <- Hsame by congruence. reflexivity.
  - exact IH.
Qed.

(** X4. [updateParams({k: v})] on a key of the instance's parameter
    object makes [params[k]] read [v], leaves the value under every
    other key as it was, and does not touch [frame], [time] or
    [isPlaying]. *)
Theorem updateParams_read_back (a : Instance.t) (e : Param.Assign) (k : string) :
  is_Some (Keys.get a (Keys.key e)) ->
  Keys.get (Instance.updateParams a [e]) (Keys.key e) = Some (Keys.value e)
  /\ (k <> Keys.key e -> Keys.get (Instance.updateParams a [e]) k = Keys.get a k)
  /\ Instance.frame (Instance.updateParams a [e]) = Instance.frame a
  /\ Instance.time (Instance.updateParams a [e]) = Instance.time a
  /\ Instance.isPlaying (Instance.updateParams a [e]) = Instance.isPlaying a.
Proof.
  intros Hkey.
  destruct a as [[b ? ? ?]|[b]|[b ?]|[b ? ?]|[b ? ?]|[b ?]];
    destruct b as [? ? ? ? ? ? ? [? ? ? o] ?]; destruct o;
    destruct e; cbn in Hkey;
    try (destruct Hkey as [? Hkey]; discriminate Hkey);
    (split; [reflexivity|]); (split; [|repeat split]);
    intros Hne; unfold Keys.get;
    (eapply lookup_elsewhere; [|exact Hne]); cbn;
    unfold Keys.rotatingPolygons, Keys.waveInterference, Keys.particleSystem,
      Keys.perlinNoise, Keys.fractal, Keys.spirograph; cbn;
    repeat (constructor;
            [split; [reflexivity
                    | cbn; intros ?; first [reflexivity | congruence]] |]);
    constructor.
Qed.

Lemma updateParams_read_back_witness :
  Keys.get (Instance.updateParams (Instance.OfParticleSystem Sample.oneParticle)
              [Param.trailLength 5]) "trailLength"
  = Some (Keys.Count 5)
  /\ Keys.get (Instance.updateParams (Instance.OfParticleSystem Sample.oneParticle)
                 [Param.trailLength 5]) "gravity"
     = Keys.get (Instance.OfParticleSystem Sample.oneParticle) "gravity".
Proof.
  destruct (updateParams_read_back
              (Instance.OfParticleSystem Sample.oneParticle)
              (Param.trailLength 5) "gravity") as (H1 & H2 & _).
  - eexists. reflexivity.
  - split; [exact H1 | apply H2; discriminate].
Defined.

(** X5. For each class, every key of the control schema is a key of the
    parameter object of a new instance, and the default value fits the
    control: it lies within [[min, max]] of a range and is one of the
    options of a select. *)
Theorem schema_defaults_fit (random : Random) (canvas : Canvas.t)
    (c : Registry.Class) :
  forallb
    (fun entry =>
       match Keys.get (Registry.construct c random canvas []) (fst entry) with
       | Some v => fits (snd entry) v
       | None => false
       end)
    (Schema.getControlSchema c)
  = true.
Proof. destruct c; reflexivity. Qed.

(** ** The colour model, continued *)

Section Colour.

Local Open Scope Q_scope.

(** On a dividend that is not negative the truncated quotient is the
    floor. *)
Lemma trunc_floor (q : Q) : 0 <= q -> JS.trunc q = Qfloor q.
Proof.
  intros Hq. destruct q as [n d]. unfold JS.trunc, Qfloor. cbn [Qnum Qden].
  unfold Qle in Hq. cbn in Hq.
  apply Z.quot_div_nonneg; lia.
Qed.

(** [a % 2] lies in [[0, 2]] when [a] is not negative. *)
Lemma rem_2_range (a : Q) : 0 <= a -> 0 <= JS.rem a 2 /\ JS.rem a 2 <= 2.
Proof.
  intros Ha. unfold JS.rem.
  assert (Hq : 0 <= a / 2).
  { unfold Qdiv. apply Qmult_le_0_compat; [exact Ha | discriminate]. }
  rewrite (trunc_floor _ Hq).
  pose proof (Qfloor_le (a / 2)) as Hlo.
  pose proof (Qlt_floor (a / 2)) as Hhi.
  rewrite inject_Z_plus in Hhi.
  set (f := inject_Z (Qfloor (a / 2))) in *. clearbody f.
  change (inject_Z 1) with 1 in Hhi.
  change (a / 2) with (a * (1 # 2)) in Hlo, Hhi.
  split; Lqa.lra.
Qed.

(** [Math.round] keeps a value of [[0, 255]] in [[0, 255]]. *)
Lemma round_255 (y : Q) :
  0 <= y -> y <= 255 -> (0 <= JS.Math_round y <= 255)%Z.
Proof.
  intros Hlo Hhi. unfold JS.Math_round. split.
  - change 0%Z with (Qfloor (1 # 2)). apply Qfloor_resp_le. Lqa.lra.
  - change 255%Z with (Qfloor (511 # 2)). apply Qfloor_resp_le. Lqa.lra.
Qed.

(** A channel [(r + m) * 255] with [r + m] in [[0, 1]]. *)
Lemma channel_255 (r m : Q) :
  0 <= r + m -> r + m <= 1 -> (0 <= JS.Math_round ((r + m) * 255) <= 255)%Z.
Proof.
  intros Hlo Hhi. apply round_255; Lqa.lra.
Qed.

End Colour.

(** X6. For a hue that is not negative and a saturation and a value in
    [[0, 1]], each channel that [hsvToRgb] returns lies in [0 .. 255]. *)
Theorem hsvToRgb_channels_in_range (h s v : Q) :
  (0 <= h)%Q -> (0 <= s)%Q -> (s <= 1)%Q -> (0 <= v)%Q -> (v <= 1)%Q ->
  let '(r, g, b) := Animation.hsvToRgb h s v in
  (0 <= r <= 255)%Z /\ (0 <= g <= 255)%Z /\ (0 <= b <= 255)%Z.
Proof.
  intros Hh Hs0 Hs1 Hv0 Hv1. unfold Animation.hsvToRgb. cbv zeta.
  assert (Hrem : (0 <= JS.rem (h * 6) 2 /\ JS.rem (h * 6) 2 <= 2)%Q).
  { apply rem_2_range. apply Qmult_le_0_compat; [exact Hh | discriminate]. }
  set (t := JS.Math_abs (JS.rem (h * 6) 2 - 1)).
  assert (Ht : (0 <= t /\ t <= 1)%Q).
  { unfold t, JS.Math_abs. split; [apply Qabs_nonneg|].
    apply Qabs_Qle_condition. destruct Hrem. split; Lqa.lra. }
  clearbody t. clear Hrem.
  assert (Hc : (0 <= v * s /\ v * s <= v)%Q).
  { split; [apply Qmult_le_0_compat; assumption|]. Lqa.nra. }
  set (c := (v * s)%Q) in *. clearbody c.
  assert (Hx : (0 <= c * (1 - t) /\ c * (1 - t) <= c)%Q).
  { destruct Ht, Hc. split; Lqa.nra. }
  set (x := (c * (1 - t))%Q) in *. clearbody x.
  destruct Hc as [Hc0 Hc1], Hx as [Hx0 Hx1].
  destruct (JS.ltb h (1 / 6)); [|destruct (JS.ltb h (2 / 6));
    [|destruct (JS.ltb h (3 / 6)); [|destruct (JS.ltb h (4 / 6));
      [|destruct (JS.ltb h (5 / 6))]]]];
    repeat split; apply channel_255; Lqa.lra.
Qed.

Lemma hsvToRgb_channels_in_range_witness :
  let '(r, g, b) := Animation.hsvToRgb 0.7 0.8 0.9 in
  (0 <= r <= 255)%Z /\ (0 <= g <= 255)%Z /\ (0 <= b <= 255)%Z.
Proof.
  apply (hsvToRgb_channels_in_range 0.7 0.8 0.9); discriminate.
Defined.

(** X7. With saturation 0, [hsvToRgb] returns the same gray
    [Math.round(v * 255)] on the three channels, whatever the hue. *)
Theorem hsvToRgb_gray (h v : Q) :
  Animation.hsvToRgb h 0 v
  = (JS.Math_round (v * 255), JS.Math_round (v * 255), JS.Math_round (v * 255)).
Proof.
  unfold Animation.hsvToRgb. cbv zeta.
  set (t := JS.Math_abs (JS.rem (h * 6) 2 - 1)). clearbody t.
  assert (Ec : forall r, (r == 0)%Q ->
            JS.Math_round ((r + (v - v * 0)) * 255) = JS.Math_round (v * 255)).
  { intros r Hr. unfold JS.Math_round. apply Qfloor_comp. rewrite Hr. ring. }
  assert (E0 : (0 == 0)%Q) by reflexivity.
  assert (E1 : (v * 0 == 0)%Q) by ring.
  assert (E2 : (v * 0 * (1 - t) == 0)%Q) by ring.
  destruct (JS.ltb h (1 / 6)); [|destruct (JS.ltb h (2 / 6));
    [|destruct (JS.ltb h (3 / 6)); [|destruct (JS.ltb h (4 / 6));
      [|destruct (JS.ltb h (5 / 6))]]]];
    rewrite ?(Ec _ E0), ?(Ec _ E1), ?(Ec _ E2); reflexivity.
Qed.

(** ** The particle system, continued *)

Section Particles.

Import ParticleSystem.
Local Open Scope Q_scope.

(** X8. With draws in [[0, 1)], [initializeParticles] replaces the
    particles by [particleCount] new ones, each with an empty trail and
    a velocity in [[-5, 5)] on both axes, and leaves the rest of the
    instance as it is. *)
Theorem initializeParticles_spawns (random : Random) (a : t) :
  (forall n, 0 <= random n /\ random n < 1) ->
  let a' := initializeParticles random a in
  length (particles a') = particleCount (Animation.own (Animation.params (base a)))
  /\ Forall (fun p => trail p = []
                      /\ (-5 <= vx p /\ vx p < 5)
                      /\ (-5 <= vy p /\ vy p < 5)) (particles a')
  /\ base a' = base a.
Proof.
  intros Hr. cbv zeta. cbn [initializeParticles particles base].
  split; [rewrite length_map, length_seq; reflexivity|].
  split; [|reflexivity].
  apply List.Forall_forall. intros p Hp.
  apply in_map_iff in Hp. destruct Hp as [i [<- _]].
  cbn [spawn trail vx vy].
  destruct (Hr (4 * i + 2)%nat) as [? ?].
  destruct (Hr (4 * i + 3)%nat) as [? ?].
  repeat split; Lqa.lra.
Qed.

Lemma initializeParticles_spawns_witness :
  let a' := initializeParticles Sample.half Sample.oneParticle in
  length (particles a') = 1%nat
  /\ Forall (fun p => trail p = []
                      /\ (-5 <= vx p /\ vx p < 5)
                      /\ (-5 <= vy p /\ vy p < 5)) (particles a')
  /\ base a' = base Sample.oneParticle.
Proof.
  apply (initializeParticles_spawns Sample.half Sample.oneParticle).
  intros n. unfold Sample.half. split; [discriminate | reflexivity].
Defined.

Lemma call_particle_count (a : t) (c : Calls.Call) :
  length (particles (Calls.call a c)) = length (particles a).
Proof.
  destruct a as [b ps]; destruct b as [? ? ? ? ? ? ? ? playing];
    destruct c; cbn; try reflexivity.
  destruct playing; cbn; [apply length_map | reflexivity].
Qed.

(** X9. No sequence of [update], [updateParams], [play], [pause] and
    [reset] calls changes the number of particles, not even
    [updateParams({particleCount: n})]: the new count takes effect at the
    next [initializeParticles]. *)
Theorem particle_count_changes_at_initialize (random : Random)
    (cs : list Calls.Call) (a : t) :
  length (particles (Calls.run cs a)) = length (particles a)
  /\ length (particles (initializeParticles random (Calls.run cs a)))
     = particleCount (Animation.own (Animation.params (base (Calls.run cs a)))).
Proof.
  split.
  - revert a. induction cs as [|c cs IH]; intros a; [reflexivity|].
    cbn [Calls.run fold_left]. unfold Calls.run in IH.
    rewrite IH. apply call_particle_count.
  - cbn [initializeParticles particles].
    rewrite length_map, length_seq. reflexivity.
Qed.

Lemma pushTrail_last (cap : nat) (tr : list Point) (p : Point) :
  (1 <= cap)%nat -> last (pushTrail cap tr p) = Some p.
Proof.
  intros Hcap. unfold pushTrail.
  destruct (cap <? length (tr ++ [p]))%nat eqn:E.
  - destruct tr as [|q tr].
    + apply Nat.ltb_lt in E. cbn in E. lia.
    + cbn [app tl]. apply last_snoc.
  - apply last_snoc.
Qed.

(** X10. After an [update] of a playing system whose [trailLength] is at
    least 1, the newest entry of each trail is the position of its
    particle. *)
Theorem trail_ends_at_position (a : t) (deltaTime : Q) :
  Animation.isPlaying (base a) = true ->
  (1 <= trailLength (Animation.own (Animation.params (base a))))%nat ->
  Forall (fun p => last (trail p) = Some {| px := x p; py := y p |})
         (particles (update a deltaTime)).
Proof.
  intros Hplay Hcap.
  destruct a as [b ps]; destruct b as [? ? ? ? ? ? ? ? playing].
  cbn in Hplay, Hcap. subst playing. cbn.
  apply List.Forall_forall. intros p Hp.
  apply in_map_iff in Hp. destruct Hp as [q [<- _]].
  cbn [trail step x y]. apply pushTrail_last. exact Hcap.
Qed.

Lemma trail_ends_at_position_witness :
  Forall (fun p => last (trail p) = Some {| px := x p; py := y p |})
         (particles (update (play Sample.oneParticle) 16)).
Proof.
  apply (trail_ends_at_position (play Sample.oneParticle) 16).
  - reflexivity.
  - cbn. lia.
Defined.

(** X12. With [airDamping] and [bounceDamping] in [[0, 1]], one step
    does not raise the horizontal speed of a particle, and leaves a
    vertical speed of at most that of the velocity after gravity. *)
Theorem step_damps_speed (width height : Z) (o : Own) (dt : Q) (p : Particle) :
  0 <= airDamping o -> airDamping o <= 1 ->
  0 <= bounceDamping o -> bounceDamping o <= 1 ->
  Qabs (vx (step width height o dt p)) <= Qabs (vx p)
  /\ Qabs (vy (step width height o dt p)) <= Qabs (vy p + gravity o).
Proof.
  intros Ha0 Ha1 Hb0 Hb1.
  assert (Hdamp : forall v k, 0 <= k -> k <= 1 -> Qabs (v * k) <= Qabs v).
  { intros v k Hk0 Hk1. rewrite Qabs_Qmult, (Qabs_pos k Hk0).
    pose proof (Qabs_nonneg v). Lqa.nra. }
  assert (Hbounce : forall v, Qabs (v * - bounceDamping o) <= Qabs v).
  { intros v.
    assert (E : v * - bounceDamping o == - (v * bounceDamping o)) by ring.
    rewrite E, Qabs_opp. apply Hdamp; assumption. }
  cbn [vx vy step]. split.
  - destruct (JS.leb _ 0 || JS.leb _ _).
    + eapply Qle_trans; [apply Hbounce | apply Hdamp; assumption].
    + apply Hdamp; assumption.
  - destruct (JS.leb (y p + _) 0 || JS.leb _ (y p + _)).
    + eapply Qle_trans; [apply Hbounce | apply Hdamp; assumption].
    + apply Hdamp; assumption.
Qed.

Lemma step_damps_speed_witness :
  Forall (fun p =>
            Qabs (vx (step 100 100
                        (Animation.own (Animation.params (base Sample.oneParticle)))
                        0.16 p)) <= Qabs (vx p))
         (particles Sample.oneParticle).
Proof.
  apply List.Forall_forall. intros p _.
  apply (step_damps_speed 100 100
           (Animation.own (Animation.params (base Sample.oneParticle))) 0.16 p);
    discriminate.
Defined.

(** X13. A particle that was on the surface left of the right edge and
    whose step carries it onto or past that edge ends on the edge with a
    horizontal velocity that does not point outward; likewise at the
    left edge.  The time step is positive and [bounceDamping] is not
    negative. *)
Theorem step_bounces_off_side_walls (width height : Z) (o : Own) (dt : Q)
    (p : Particle) :
  0 < dt -> 0 <= bounceDamping o ->
  let x1 := x p + vx p * airDamping o * dt in
  (0 <= x p -> x p < inject_Z width -> inject_Z width <= x1 ->
   x (step width height o dt p) == inject_Z width
   /\ vx (step width height o dt p) <= 0)
  /\ (0 < x p -> x p <= inject_Z width -> x1 <= 0 ->
      x (step width height o dt p) == 0
      /\ 0 <= vx (step width height o dt p)).
Proof.
  intros Hdt Hb. cbv zeta. cbn [x vx step].
  set (v := vx p * airDamping o). set (w := inject_Z width).
  split.
  - intros Hx0 Hxw Hhit.
    assert (Hv : 0 < v * dt) by Lqa.lra.
    assert (Hv' : 0 < v).
    { destruct (Qlt_le_dec 0 v) as [?|Hneg]; [assumption|].
      exfalso. assert (v * dt <= 0) by Lqa.nra. Lqa.lra. }
    replace (JS.leb w (x p + v * dt)) with true
      by (symmetry; apply leb_le; exact Hhit).
    rewrite orb_true_r. split.
    + unfold JS.Math_max, JS.Math_min.
      replace (JS.leb w (x p + v * dt)) with true
        by (symmetry; apply leb_le; exact Hhit).
      replace (JS.leb 0 w) with true
        by (symmetry; apply leb_le; Lqa.lra).
      reflexivity.
    + Lqa.nra.
  - intros Hx0 Hxw Hhit.
    assert (Hv : v * dt < 0) by Lqa.lra.
    assert (Hv' : v < 0).
    { destruct (Qlt_le_dec v 0) as [?|Hpos]; [assumption|].
      exfalso. assert (0 <= v * dt) by Lqa.nra. Lqa.lra. }
    replace (JS.leb (x p + v * dt) 0) with true
      by (symmetry; apply leb_le; exact Hhit).
    cbn [orb]. split.
    + unfold JS.Math_max, JS.Math_min.
      replace (JS.leb w (x p + v * dt)) with false
        by (symmetry; apply leb_gt; Lqa.lra).
      destruct (JS.leb 0 (x p + v * dt)) eqn:E.
      * apply leb_le in E. Lqa.lra.
      * reflexivity.
    + Lqa.nra.
Qed.

Lemma step_bounces_off_side_walls_witness :
  let o := Animation.own (Animation.params (base Sample.oneParticle)) in
  let p := {| x := 99; y := 50; vx := 100; vy := 0; trail := [] |} in
  x (step 100 100 o 0.16 p) == 100 /\ vx (step 100 100 o 0.16 p) <= 0.
Proof.
  cbv zeta.
  destruct (step_bounces_off_side_walls 100 100
              (Animation.own (Animation.params (base Sample.oneParticle))) 0.16
              {| x := 99; y := 50; vx := 100; vy := 0; trail := [] |})
    as [Hright _]; [reflexivity | discriminate |].
  apply Hright; [discriminate | reflexivity | discriminate].
Defined.

(** X11 at a run of two frames with the default [trailLength] of 20. *)
Lemma trails_within_largest_cap_witness :
  trailsWithin 20
    (Calls.run [Calls.Play; Calls.Update 16; Calls.Update 16] Sample.oneParticle).
Proof.
  apply (trails_within_largest_cap 20
           [Calls.Play; Calls.Update 16; Calls.Update 16] Sample.oneParticle).
  - repeat constructor.
  - repeat constructor.
Defined.

End Particles.

(** ** Rotating polygons *)

Section Rotation.

Import RotatingPolygons.
Local Open Scope Q_scope.

Lemma call_keeps_cursor (a : t) (c : Driver.Call) :
  lastTime a = Animation.time (base a) ->
  exists a', Driver.call (Instance.OfRotatingPolygons a) c
             = Instance.OfRotatingPolygons a'
             /\ lastTime a' = Animation.time (base a').
Proof.
  intros Hcursor.
  destruct a as [b ? ? ?]; destruct b as [? ? ? ? ? ? ? ? playing];
    cbn in Hcursor; destruct c; cbn; try (eexists; split; [reflexivity|]; cbn;
      first [exact Hcursor | reflexivity]).
  destruct playing; cbn; eexists; (split; [reflexivity|]); cbn;
    first [exact Hcursor | reflexivity].
Qed.

Lemma run_keeps_cursor (cs : list Driver.Call) (a : t) :
  lastTime a = Animation.time (base a) ->
  exists a', Driver.run cs (Instance.OfRotatingPolygons a)
             = Instance.OfRotatingPolygons a'
             /\ lastTime a' = Animation.time (base a').
Proof.
  revert a. induction cs as [|c cs IH]; intros a Hcursor.
  - exists a. split; [reflexivity | exact Hcursor].
  - destruct (call_keeps_cursor a c Hcursor) as [a1 [E1 H1]].
    destruct (IH a1 H1) as [a2 [E2 H2]].
    exists a2. split; [|exact H2].
    cbn [Driver.run fold_left]. rewrite E1. exact E2.
Qed.

(** X14. However a new [RotatingPolygons] is driven ([update],
    [updateParams], [play], [pause], [reset]), its last sampled time
    equals its elapsed time; so an [update] while playing turns the phase
    by [deltaTime * speed * rotationSpeed * 0.01], with the rotation
    speed in force at that call, and an [update] while paused leaves
    the phase alone. *)
Theorem rotation_phase_integrates (canvas : Canvas.t) (params : Param.Object)
    (cs : list Driver.Call) (deltaTime : Q) :
  exists a,
    Driver.run cs (Instance.OfRotatingPolygons (constructor canvas params))
    = Instance.OfRotatingPolygons a
    /\ lastTime a = Animation.time (base a)
    /\ (rotationPhase (update a deltaTime)
        == rotationPhase a
           + (if Animation.isPlaying (base a)
              then deltaTime * Animation.speed (Animation.params (base a))
                   * rotationSpeed (Animation.own (Animation.params (base a)))
                   * 0.01
              else 0)).
Proof.
  destruct (run_keeps_cursor cs (constructor canvas params) eq_refl)
    as [a [Erun Hcursor]].
  exists a. split; [exact Erun|]. split; [exact Hcursor|].
  destruct a as [b ? ? ?]; destruct b as [? ? ? ? ? ? ? ? playing].
  cbn in Hcursor. subst. destruct playing; cbn; ring.
Qed.

End Rotation.

(** ** The fractal, continued *)

Section FractalState.

Import Fractal.
Local Open Scope Q_scope.

(** X15. An [update] of a playing fractal with a zoom, a zoom speed and
    a time step that are not negative does not lower the zoom; it adds
    [colorSpeed * deltaTime * 0.0001] to the colour offset. *)
Theorem fractal_update_zooms_in (a : t) (deltaTime : Q) :
  Animation.isPlaying (base a) = true ->
  0 <= zoom a ->
  0 <= zoomSpeed (Animation.own (Animation.params (base a))) ->
  0 <= deltaTime ->
  zoom a <= zoom (update a deltaTime)
  /\ colorOffset (update a deltaTime)
     = colorOffset a
       + colorSpeed (Animation.own (Animation.params (base a))) * deltaTime * 0.0001.
Proof.
  intros Hplay Hzoom Hspeed Hdt.
  destruct a as [b z co]; destruct b as [? ? ? ? ? ? ? p playing].
  cbn in *. subst playing. cbn. split; [|reflexivity].
  set (s := zoomSpeed (Animation.own p)) in *. clearbody s.
  assert (0 <= s * deltaTime) by (apply Qmult_le_0_compat; assumption).
  Lqa.nra.
Qed.

Lemma fractal_update_zooms_in_witness :
  let a := withBase (constructor Sample.canvas [])
             (Animation.play (base (constructor Sample.canvas []))) in
  zoom a <= zoom (update a 16)
  /\ colorOffset (update a 16) = 0 + 1.0 * 16 * 0.0001.
Proof.
  cbv zeta.
  apply (fractal_update_zooms_in
           (withBase (constructor Sample.canvas [])
              (Animation.play (base (constructor Sample.canvas [])))) 16);
    first [reflexivity | discriminate].
Defined.

(** X16. The constructor places the centre at [(-0.5, 0)] whatever
    [centerX] and [centerY] the parameters carry; the configured centre
    is in force after [reset], and after an [update] while playing. *)
Theorem fractal_centre_follows_params_late (canvas : Canvas.t)
    (params : Param.Object) (deltaTime : Q) :
  let a := constructor canvas params in
  let configured (b : Animation.t Own) :=
    (centerX (Animation.own (Animation.params b)),
     centerY (Animation.own (Animation.params b))) in
  let centre (b : Animation.t Own) := (Animation.centerX b, Animation.centerY b) in
  centre (base a) = (-0.5, 0)
  /\ centre (base (update a deltaTime)) = (-0.5, 0)
  /\ centre (base (reset a)) = configured (base a)
  /\ centre (base (update (withBase a (Animation.play (base a))) deltaTime))
     = configured (base a).
Proof. cbv zeta. repeat split. Qed.

End FractalState.

Section EscapeLoopExit.

Import Fractal.

Variable body : Orbit -> Orbit.
Hypothesis body_counts : forall o, iter (body o) = S (iter o).

(** The loop from an orbit at iteration 0: it stops within the bound
    with its condition false, and an orbit that is still inside the
    disc when it stops is given the count 0. *)
Lemma while_inside_result (maxIter : nat) (s : Orbit) :
  iter s = 0%nat ->
  let o := while maxIter (inside maxIter) body s in
  (iter o <= maxIter)%nat
  /\ inside maxIter o = false
  /\ (JS.leb (x2 o + y2 o) 4 = true -> escapeCount maxIter o = 0%R).
Proof.
  intros Hs. cbv zeta.
  pose proof (while_inside_exit body body_counts maxIter s Hs) as Hexit.
  assert (H : (iter s + maxIter = maxIter)%nat) by lia.
  apply (while_inside body body_counts) in H. cbv zeta in H.
  set (o := while maxIter (inside maxIter) body s) in *.
  split; [destruct H as [H | [H _]]; lia|].
  split; [exact Hexit|].
  intros Hin. unfold inside in Hexit. rewrite Hin in Hexit. cbn in Hexit.
  apply Nat.ltb_ge in Hexit.
  unfold escapeCount.
  replace (iter o =? maxIter)%nat with true; [reflexivity|].
  symmetry. apply Nat.eqb_eq. destruct H as [H | [H _]]; lia.
Qed.

End EscapeLoopExit.

(** X17. For the three families, the escape loop stops after at most
    [maxIter] iterations with [x2 + y2 > 4] or [iter = maxIter], and a
    point whose orbit is still within [x2 + y2 <= 4] when the loop stops
    gets the count 0. *)
Theorem bounded_orbits_count_zero (cx cy : Q) (c : Fractal.Complex) (maxIter : nat) :
  let stops (o : Fractal.Orbit) :=
    (Fractal.iter o <= maxIter)%nat
    /\ Fractal.inside maxIter o = false
    /\ (JS.leb (Fractal.x2 o + Fractal.y2 o) 4 = true ->
        Fractal.escapeCount maxIter o = 0%R) in
  stops (Fractal.mandelbrotOrbit cx cy maxIter)
  /\ stops (Fractal.juliaOrbit cx cy maxIter c)
  /\ stops (Fractal.burningShipOrbit cx cy maxIter).
Proof.
  cbv zeta. split; [|split];
    unfold Fractal.mandelbrotOrbit, Fractal.juliaOrbit, Fractal.burningShipOrbit;
    apply while_inside_result; auto.
Qed.

(** ** The spirograph *)

Section Trail.

Import Spirograph.

Variables Math_cos Math_sin : Q -> Q.

Lemma lastN_length {A} (n : nat) (l : list A) : (length (lastN n l) <= n)%nat.
Proof. unfold lastN. rewrite length_drop. lia. Qed.

(** [render] keeps the trail within 2000 points and adds at most one. *)
Lemma render_cap (a : t) :
  (length (trailPoints a) <= 2000)%nat ->
  (length (trailPoints (render Math_cos Math_sin a)) <= 2000)%nat.
Proof.
  intros Hcap. unfold render. cbv zeta. cbn [trailPoints].
  match goal with
  | |- context [if ?guard then trailPoints a ++ _ else trailPoints a] =>
      destruct guard
  end.
  - destruct (2000 <? length (trailPoints a ++ _))%nat eqn:E.
    + apply lastN_length.
    + apply Nat.ltb_ge in E. exact E.
  - destruct (2000 <? length (trailPoints a))%nat eqn:E.
    + apply lastN_length.
    + exact Hcap.
Qed.

Lemma spiroCall_cap (a : t) (c : Frames.SpiroCall) :
  (length (trailPoints a) <= 2000)%nat ->
  (length (trailPoints (Frames.spiroCall Math_cos Math_sin a c)) <= 2000)%nat.
Proof.
  intros Hcap. destruct c; cbn [Frames.spiroCall];
    try exact Hcap; apply render_cap; exact Hcap.
Qed.

(** X19. Whatever [Math.cos] and [Math.sin] return, the trail of a new
    spirograph never holds more than 2000 points, along any sequence of
    [update], [render], [updateParams], [play], [pause] and [reset]
    calls. *)
Theorem spirograph_trail_capped (canvas : Canvas.t) (params : Param.Object)
    (cs : list Frames.SpiroCall) :
  (length (trailPoints
             (Frames.spiroRun Math_cos Math_sin cs (constructor canvas params)))
   <= 2000)%nat.
Proof.
  assert (H : forall a, (length (trailPoints a) <= 2000)%nat ->
            (length (trailPoints (Frames.spiroRun Math_cos Math_sin cs a))
             <= 2000)%nat).
  { induction cs as [|c cs IH]; intros a Ha; [exact Ha|].
    cbn [Frames.spiroRun fold_left]. apply IH. apply spiroCall_cap. exact Ha. }
  apply H. cbn. lia.
Qed.

End Trail.

(** ** The noise field, continued *)

Lemma noiseCall_state (a : PerlinNoise.t) (c : Frames.NoiseCall) :
  PerlinNoise.permutation (Frames.noiseCall a c) = PerlinNoise.permutation a
  /\ (Frames.isRender c = false ->
      PerlinNoise.noiseOffset (Frames.noiseCall a c) = PerlinNoise.noiseOffset a).
Proof.
  destruct c; cbn; split; intros; try reflexivity; discriminate.
Qed.

(** X20. No call reseeds a noise field: [update], [render],
    [updateParams], [play], [pause] and [reset] all keep the permutation
    table; and only [render] moves [noiseOffset], which [reset] does not
    rewind. *)
Theorem noise_field_is_never_reseeded (cs : list Frames.NoiseCall)
    (a : PerlinNoise.t) :
  PerlinNoise.permutation (Frames.noiseRun cs a) = PerlinNoise.permutation a
  /\ (forallb (fun c => negb (Frames.isRender c)) cs = true ->
      PerlinNoise.noiseOffset (Frames.noiseRun cs a) = PerlinNoise.noiseOffset a).
Proof.
  revert a. induction cs as [|c cs IH]; intros a.
  - split; reflexivity.
  - cbn [Frames.noiseRun fold_left forallb].
    destruct (IH (Frames.noiseCall a c)) as [IHp IHo].
    destruct (noiseCall_state a c) as [Hp Ho].
    unfold Frames.noiseRun in *. split.
    + rewrite IHp. exact Hp.
    + intros Hcs. apply andb_true_iff in Hcs. destruct Hcs as [Hc Hcs].
      rewrite (IHo Hcs). apply Ho. apply negb_true_iff. exact Hc.
Qed.

Lemma noise_field_is_never_reseeded_witness :
  let a := PerlinNoise.constructor Sample.shuffleDraws Sample.canvas [] in
  let cs := [Frames.NoisePlay; Frames.NoiseUpdate 16; Frames.NoiseReset] in
  PerlinNoise.noiseOffset (Frames.noiseRun cs a) = PerlinNoise.noiseOffset a.
Proof.
  cbv zeta.
  apply (noise_field_is_never_reseeded
           [Frames.NoisePlay; Frames.NoiseUpdate 16; Frames.NoiseReset]
           (PerlinNoise.constructor Sample.shuffleDraws Sample.canvas [])).
  reflexivity.
Defined.

Section NoiseValues.

Import PerlinNoise.
Local Open Scope Q_scope.

Lemma shuffle_permutation (random : Random) (i k : nat) (p : Table) :
  shuffle random k i p ≡ₚ p.
Proof.
  revert k p. induction i as [|i IH]; intros k p; cbn [shuffle].
  - reflexivity.
  - rewrite IH. unfold swap.
    set (j := Z.to_nat _).
    destruct (p !! S i) as [a|] eqn:Ea; [|reflexivity].
    destruct (p !! j) as [b|] eqn:Eb; [|reflexivity].
    apply Permutation_insert_swap; assumption.
Qed.

(** X21. Whatever draws in [[0, 1)] [Math.random] returns, the table
    of [generatePermutation] has 512 entries, its first 256 entries are
    a permutation of [0 .. 255], and its last 256 entries repeat the
    first 256. *)
Theorem generatePermutation_permutes (random : Random) :
  (forall n, 0 <= random n /\ random n < 1) ->
  length (generatePermutation random) = 512%nat
  /\ take 256 (generatePermutation random) ≡ₚ map Z.of_nat (seq 0 256)
  /\ drop 256 (generatePermutation random) = take 256 (generatePermutation random).
Proof.
  intros _. unfold generatePermutation. cbv zeta.
  set (p0 := map Z.of_nat (seq 0 256)).
  set (p := shuffle random 0 255 p0).
  assert (Hlen : length p = 256%nat)
    by (unfold p; rewrite shuffle_length; reflexivity).
  split; [rewrite length_app; lia|].
  rewrite (take_app_length' p p 256) by (symmetry; exact Hlen).
  rewrite (drop_app_length' p p 256) by (symmetry; exact Hlen).
  split; [apply shuffle_permutation | reflexivity].
Qed.

Lemma generatePermutation_permutes_witness :
  length (generatePermutation Sample.half) = 512%nat
  /\ take 256 (generatePermutation Sample.half) ≡ₚ map Z.of_nat (seq 0 256)
  /\ drop 256 (generatePermutation Sample.half)
     = take 256 (generatePermutation Sample.half).
Proof.
  apply (generatePermutation_permutes Sample.half).
  intros n. split; [discriminate | reflexivity].
Defined.

(** On a well-formed table [noise] blends the gradients of eight hashes
    at the position of the point in its cell. *)
Lemma noise_shape (p : Table) (x y z : Q) :
  wellFormed p ->
  exists hAA hBA hAB hBB hAA1 hBA1 hAB1 hBB1,
    noise p x y z
    = Some (blend hAA hBA hAB hBB hAA1 hBA1 hAB1 hBB1 (frac x) (frac y) (frac z)).
Proof.
  intros Hp. unfold noise.
  pose proof (land_255 (JS.Math_floor x)) as HX.
  pose proof (land_255 (JS.Math_floor y)) as HY.
  pose proof (land_255 (JS.Math_floor z)) as HZ.
  set (X := Z.land (JS.Math_floor x) 255) in *.
  set (Y := Z.land (JS.Math_floor y) 255) in *.
  set (Z_ := Z.land (JS.Math_floor z) 255) in *.
  cbv zeta.
  destruct (at_wellFormed p X Hp) as [pX [-> HpX]]; [lia|]. cbn [mbind option_bind].
  destruct (at_wellFormed p (pX + Y) Hp) as [pA [-> HpA]]; [lia|]. cbn [mbind option_bind].
  destruct (at_wellFormed p (pX + Y + 1) Hp) as [pA1 [-> HpA1]]; [lia|]. cbn [mbind option_bind].
  destruct (at_wellFormed p (X + 1) Hp) as [pX1 [-> HpX1]]; [lia|]. cbn [mbind option_bind].
  destruct (at_wellFormed p (pX1 + Y) Hp) as [pB [-> HpB]]; [lia|]. cbn [mbind option_bind].
  destruct (at_wellFormed p (pX1 + Y + 1) Hp) as [pB1 [-> HpB1]]; [lia|]. cbn [mbind option_bind].
  destruct (at_wellFormed p (pA + Z_) Hp) as [hAA [-> _]]; [lia|]. cbn [mbind option_bind].
  destruct (at_wellFormed p (pB + Z_) Hp) as [hBA [-> _]]; [lia|]. cbn [mbind option_bind].
  destruct (at_wellFormed p (pA1 + Z_) Hp) as [hAB [-> _]]; [lia|]. cbn [mbind option_bind].
  destruct (at_wellFormed p (pB1 + Z_) Hp) as [hBB [-> _]]; [lia|]. cbn [mbind option_bind].
  destruct (at_wellFormed p (pA + Z_ + 1) Hp) as [hAA1 [-> _]]; [lia|]. cbn [mbind option_bind].
  destruct (at_wellFormed p (pB + Z_ + 1) Hp) as [hBA1 [-> _]]; [lia|]. cbn [mbind option_bind].
  destruct (at_wellFormed p (pA1 + Z_ + 1) Hp) as [hAB1 [-> _]]; [lia|]. cbn [mbind option_bind].
  destruct (at_wellFormed p (pB1 + Z_ + 1) Hp) as [hBB1 [-> _]]; [lia|]. cbn [mbind option_bind].
  exists hAA, hBA, hAB, hBB, hAA1, hBA1, hAB1, hBB1. reflexivity.
Qed.

Lemma frac_range (x : Q) : 0 <= frac x /\ frac x < 1.
Proof.
  unfold frac, JS.Math_floor.
  pose proof (Qfloor_le x) as Hlo. pose proof (Qlt_floor x) as Hhi.
  rewrite inject_Z_plus in Hhi. change (inject_Z 1) with 1 in Hhi.
  split; Lqa.lra.
Qed.

Lemma frac_lattice (i : Z) : frac (inject_Z i) == 0.
Proof. unfold frac, JS.Math_floor. rewrite Qfloor_Z. ring. Qed.

Lemma fade_unit (t : Q) :
  0 <= t -> t <= 1 -> 0 <= fade t /\ fade t <= 1.
Proof.
  intros H0 H1.
  unfold fade.
  assert (E1 : t * t * t * (t * (t * 6 - 15) + 10)
               == (t * t) * (t * (6 * ((t - (5 # 4)) * (t - (5 # 4))) + (5 # 8))))
    by ring.
  assert (E2 : 1 - t * t * t * (t * (t * 6 - 15) + 10)
               == ((1 - t) * (1 - t)) * ((1 - t) * (6 * (t * t) + 3 * t + 1)))
    by ring.
  assert (Hsq : forall a, 0 <= a * a) by (intros a; Lqa.nra).
  split.
  - rewrite E1. apply Qmult_le_0_compat; [apply Hsq|].
    apply Qmult_le_0_compat; [exact H0|].
    pose proof (Hsq (t - (5 # 4))). Lqa.lra.
  - assert (0 <= 1 - t * t * t * (t * (t * 6 - 15) + 10)); [|Lqa.lra].
    rewrite E2. apply Qmult_le_0_compat; [apply Hsq|].
    apply Qmult_le_0_compat; [Lqa.lra|].
    pose proof (Hsq t). Lqa.lra.
Qed.

(** X23. The fade curve maps [[0, 1]] into [[0, 1]] and fixes both
    ends. *)
Theorem fade_range (t : Q) :
  0 <= t -> t <= 1 ->
  (0 <= fade t /\ fade t <= 1) /\ fade 0 == 0 /\ fade 1 == 1.
Proof.
  intros H0 H1. split; [apply fade_unit; assumption | split; reflexivity].
Qed.

Lemma fade_range_witness :
  (0 <= fade 0.25 /\ fade 0.25 <= 1) /\ fade 0 == 0 /\ fade 1 == 1.
Proof. apply (fade_range 0.25); discriminate. Defined.

Lemma lerp_range (lo hi a b t : Q) :
  lo <= a -> a <= hi -> lo <= b -> b <= hi -> 0 <= t -> t <= 1 ->
  lo <= lerp a b t /\ lerp a b t <= hi.
Proof.
  intros. unfold lerp.
  assert (E : a + t * (b - a) == (1 - t) * a + t * b) by ring.
  rewrite E. split; Lqa.nra.
Qed.

Lemma grad_range (hash : Z) (x y z : Q) :
  -1 <= x -> x <= 1 -> -1 <= y -> y <= 1 -> -1 <= z -> z <= 1 ->
  -2 <= grad hash x y z /\ grad hash x y z <= 2.
Proof.
  intros. unfold grad. cbv zeta.
  set (h := Z.land hash 15).
  destruct (h <? 8)%Z, (h <? 4)%Z, ((h =? 12)%Z || (h =? 14)%Z),
    (Z.land h 1 =? 0)%Z, (Z.land h 2 =? 0)%Z; split; Lqa.lra.
Qed.

Lemma blend_range (hAA hBA hAB hBB hAA1 hBA1 hAB1 hBB1 : Z) (x y z : Q) :
  0 <= x -> x <= 1 -> 0 <= y -> y <= 1 -> 0 <= z -> z <= 1 ->
  -2 <= blend hAA hBA hAB hBB hAA1 hBA1 hAB1 hBB1 x y z
  /\ blend hAA hBA hAB hBB hAA1 hBA1 hAB1 hBB1 x y z <= 2.
Proof.
  intros Hx0 Hx1 Hy0 Hy1 Hz0 Hz1. unfold blend.
  destruct (fade_unit x Hx0 Hx1) as [? ?].
  destruct (fade_unit y Hy0 Hy1) as [? ?].
  destruct (fade_unit z Hz0 Hz1) as [? ?].
  assert (L : forall a b t,
            (-2 <= a /\ a <= 2) -> (-2 <= b /\ b <= 2) -> 0 <= t -> t <= 1 ->
            -2 <= lerp a b t /\ lerp a b t <= 2)
    by (intros a b t [? ?] [? ?] ? ?; apply lerp_range; assumption).
  repeat (apply L; [| |assumption|assumption]);
    apply grad_range; Lqa.lra.
Qed.

Lemma noise_range (p : Table) (x y z : Q) :
  wellFormed p ->
  exists v, noise p x y z = Some v /\ -2 <= v /\ v <= 2.
Proof.
  intros Hp.
  destruct (noise_shape p x y z Hp)
    as (hAA & hBA & hAB & hBB & hAA1 & hBA1 & hAB1 & hBB1 & ->).
  eexists; split; [reflexivity|].
  destruct (frac_range x), (frac_range y), (frac_range z).
  apply blend_range; Lqa.lra.
Qed.

Lemma octaveLoop_range (p : Table) (x y z persistence lacunarity : Q) (n : nat) :
  wellFormed p -> 0 <= persistence ->
  forall value amplitude frequency maxValue,
    0 <= amplitude ->
    -2 * maxValue <= value -> value <= 2 * maxValue ->
    exists v m,
      octaveLoop p x y z persistence lacunarity n value amplitude frequency maxValue
      = Some (v, m)
      /\ -2 * m <= v /\ v <= 2 * m /\ maxValue <= m
      /\ (n <> O -> maxValue + amplitude <= m).
Proof.
  intros Hp Hpers. induction n as [|n IH]; intros value amplitude frequency maxValue Ha Hlo Hhi.
  - exists value, maxValue. cbn [octaveLoop].
    repeat split; try assumption; [Lqa.lra | intros []; reflexivity].
  - cbn [octaveLoop].
    destruct (noise_range p (x * frequency) (y * frequency) (z * frequency) Hp)
      as (sample & -> & Hs0 & Hs1).
    cbn [mbind option_bind].
    destruct (IH (value + sample * amplitude) (amplitude * persistence)
                 (frequency * lacunarity) (maxValue + amplitude))
      as (v & m & -> & ? & ? & ? & _).
    + apply Qmult_le_0_compat; assumption.
    + Lqa.nra.
    + Lqa.nra.
    + exists v, m. repeat split; try assumption; [Lqa.lra | intros _; assumption].
Qed.

(** X22. On the table that the constructor builds from draws in
    [[0, 1)], [noise] yields a number at every point, and that number
    lies in [[-2, 2]]. *)
Theorem noise_within_two (random : Random) (x y z : Q) :
  (forall n, 0 <= random n /\ random n < 1) ->
  exists v, noise (generatePermutation random) x y z = Some v
            /\ -2 <= v /\ v <= 2.
Proof. intros _. apply noise_range, generatePermutation_wellFormed. Qed.

Lemma noise_within_two_witness :
  exists v, noise (generatePermutation Sample.half) 0.5 0.5 0.25 = Some v
            /\ -2 <= v /\ v <= 2.
Proof.
  apply (noise_within_two Sample.half 0.5 0.5 0.25).
  intros n. split; [discriminate | reflexivity].
Defined.

(** X24. On the table that the constructor builds from draws in
    [[0, 1)], [noise] is zero at every point whose three coordinates are
    integers. *)
Theorem noise_zero_on_lattice (random : Random) (i j k : Z) :
  (forall n, 0 <= random n /\ random n < 1) ->
  exists v,
    noise (generatePermutation random) (inject_Z i) (inject_Z j) (inject_Z k) = Some v
    /\ v == 0.
Proof.
  intros _.
  destruct (noise_shape (generatePermutation random)
              (inject_Z i) (inject_Z j) (inject_Z k)
              (generatePermutation_wellFormed random))
    as (hAA & hBA & hAB & hBB & hAA1 & hBA1 & hAB1 & hBB1 & ->).
  eexists; split; [reflexivity|].
  pose proof (frac_lattice i) as Hx.
  pose proof (frac_lattice j) as Hy.
  pose proof (frac_lattice k) as Hz.
  set (fx := frac (inject_Z i)) in *.
  set (fy := frac (inject_Z j)) in *.
  set (fz := frac (inject_Z k)) in *.
  clearbody fx fy fz.
  assert (F : forall t, t == 0 -> fade t == 0)
    by (intros t Ht; unfold fade; rewrite Ht; ring).
  assert (L : forall a b t, t == 0 -> lerp a b t == a)
    by (intros a b t Ht; unfold lerp; rewrite Ht; ring).
  unfold blend.
  rewrite (L _ _ (fade fz)) by (apply F; exact Hz).
  rewrite (L _ _ (fade fy)) by (apply F; exact Hy).
  rewrite (L _ _ (fade fx)) by (apply F; exact Hx).
  unfold grad. cbv zeta.
  set (h := Z.land hAA 15).
  destruct (h <? 8)%Z, (h <? 4)%Z, ((h =? 12)%Z || (h =? 14)%Z),
    (Z.land h 1 =? 0)%Z, (Z.land h 2 =? 0)%Z;
    rewrite ?Hx, ?Hy, ?Hz; ring.
Qed.

Lemma noise_zero_on_lattice_witness :
  exists v,
    noise (generatePermutation Sample.half) (inject_Z 3) (inject_Z (-7)) (inject_Z 300)
    = Some v
    /\ v == 0.
Proof.
  apply (noise_zero_on_lattice Sample.half 3 (-7) 300).
  intros n. split; [discriminate | reflexivity].
Defined.

(** X25. With at least one octave and a persistence that is not
    negative, [fractalNoise] on the table that the constructor builds
    from draws in [[0, 1)] yields a number in [[-2, 2]], for every point
    and every lacunarity. *)
Theorem fractalNoise_within_two (random : Random) (x y z : Q) (octaves : nat)
    (persistence lacunarity : Q) :
  (forall n, 0 <= random n /\ random n < 1) ->
  (1 <= octaves)%nat -> 0 <= persistence ->
  exists v,
    fractalNoise (generatePermutation random) x y z octaves persistence lacunarity
    = Some v
    /\ -2 <= v /\ v <= 2.
Proof.
  intros _ Hoct Hpers. unfold fractalNoise.
  destruct (octaveLoop_range (generatePermutation random) x y z persistence lacunarity
              octaves (generatePermutation_wellFormed random) Hpers 0 1 1 0)
    as (v & m & -> & Hlo & Hhi & _ & Hm); try Lqa.lra.
  cbn [mbind option_bind].
  assert (Hm1 : 1 <= m) by (assert (octaves <> O) as Hne by lia; specialize (Hm Hne); Lqa.lra).
  destruct (Qeq_bool m 0) eqn:E.
  - apply Qeq_bool_eq in E. Lqa.lra.
  - eexists; split; [reflexivity|].
    assert (Hpos : 0 < m) by Lqa.lra.
    split.
    + apply Qle_shift_div_l; [exact Hpos | Lqa.lra].
    + apply Qle_shift_div_r; [exact Hpos | Lqa.lra].
Qed.

Lemma fractalNoise_within_two_witness :
  exists v,
    fractalNoise (generatePermutation Sample.half) 0.5 0.5 0.25 4 0.5 2
    = Some v
    /\ -2 <= v /\ v <= 2.
Proof.
  apply (fractalNoise_within_two Sample.half 0.5 0.5 0.25 4 0.5 2);
    [intros n; split; [discriminate | reflexivity] | lia | discriminate].
Defined.

End NoiseValues.

(** ** The outcomes of [createAnimation] *)

(** X18. [createAnimation] returns an animation exactly for the six keys
    of the registry, and throws its "Unknown animation type" error
    exactly for a key that is neither one of the six nor a property of
    [Object.prototype]. *)
Theorem createAnimation_outcomes (random : Random) (canvas : Canvas.t)
    (params : Param.Object) (type : string) :
  ((exists a, Registry.createAnimation random type canvas params = Registry.Returned a)
   <-> In type Registry.keys)
  /\ (Registry.createAnimation random type canvas params
      = Registry.ThrownError ("Unknown animation type: " ++ type)
      <-> ~ In type Registry.keys /\ Registry.Object_prototype !! type = None).
Proof.
  rewrite registry_keys.
  unfold Registry.createAnimation, Registry.get.
  destruct (Registry.ANIMATIONS !! type) as [c|] eqn:Hc.
  - cbn. split; split.
    + intros _. eexists; reflexivity.
    + intros _. eexists; reflexivity.
    + discriminate.
    + intros [Hno _]. exfalso. apply Hno. eexists; reflexivity.
  - destruct (Registry.Object_prototype !! type) as [v|] eqn:Hv; cbn.
    + assert (Hd : v <> Registry.Undefined /\ forall c, v <> Registry.AClass c).
      { unfold Registry.Object_prototype in Hv.
        apply elem_of_list_to_map_2 in Hv.
        apply list_elem_of_In in Hv. cbn in Hv.
        repeat (destruct Hv as [Hv | Hv];
                [inversion Hv; split; [|intros ?]; discriminate |]).
        destruct Hv. }
      destruct Hd as [Hu Ha].
      destruct v; cbn; try (exfalso; apply Hu; reflexivity);
        try (exfalso; eapply Ha; reflexivity);
        (split; split;
         [ intros [a Ea]; discriminate Ea
         | intros [c Ec]; discriminate Ec
         | discriminate
         | intros [_ E]; discriminate E ]).
    + split; split.
      * intros [a Ea]; discriminate Ea.
      * intros [c Ec]; discriminate Ec.
      * intros _. split; [intros [c Ec]; discriminate Ec | reflexivity].
      * intros _. reflexivity.
Qed.
